(** * ShopEasy storefront: the data-fetch orchestration of [src/App.jsx]

    A shallow embedding of the [App] component: the JavaScript values it
    receives from the backend, the category derivation, the request
    construction of [fetchProducts], the two effects (seed on mount, debounced
    refetch) as a transition system over an explicit event loop, and the view
    selection of the render function. *)

From Stdlib Require Import String Ascii List Bool Arith NArith QArith Lia.
Import ListNotations.

Open Scope string_scope.
Open Scope N_scope.

Set Warnings "-register-all".

(** ** JavaScript values *)

(** Values as [JSON.parse] produces them, plus [undefined] (what reading a
    missing property gives).  A number is the rational it denotes: the program
    only tests numbers for zero and for identity.  An object is its list of
    members in source order; a repeated key is kept and the last one wins on
    lookup, as in [JSON.parse]. *)
Inductive jsval : Type :=
| VUndefined
| VNull
| VBool (b : bool)
| VNum (q : Q)
| VStr (s : string)
| VArr (elems : list jsval)
| VObj (members : list (string * jsval)).

Inductive jserror : Type :=
| TypeError      (* property read on null/undefined, call of a non-function *)
| SyntaxError    (* rejection of [res.json()] *)
| NetworkError.  (* rejection of [fetch] *)

(** A computation that may throw. *)
Inductive result (A : Type) : Type :=
| Ok (a : A)
| Throw (e : jserror).
Arguments Ok {A} a.
Arguments Throw {A} e.

Definition bind {A B} (r : result A) (k : A -> result B) : result B :=
  match r with
  | Ok a => k a
  | Throw e => Throw e
  end.

Notation "x <- r ;; k" := (bind r (fun x => k))
  (at level 61, r at next level, right associativity).

Fixpoint map_result {A B} (f : A -> result B) (l : list A) : result (list B) :=
  match l with
  | [] => Ok []
  | a :: l' => b <- f a ;; bs <- map_result f l' ;; Ok (b :: bs)
  end.

(** [Boolean(v)]. *)
Definition truthy (v : jsval) : bool :=
  match v with
  | VUndefined | VNull => false
  | VBool b => b
  | VNum q => negb (Qeq_bool q 0)
  | VStr s => negb (String.eqb s "")
  | VArr _ | VObj _ => true
  end.

(** [a || b]. *)
Definition js_or (a b : jsval) : jsval := if truthy a then a else b.

(** Own member [k] of an object literal; the last occurrence wins. *)
Fixpoint obj_get (k : string) (members : list (string * jsval)) : option jsval :=
  match members with
  | [] => None
  | (k', v) :: rest =>
      match obj_get k rest with
      | Some v' => Some v'
      | None => if String.eqb k k' then Some v else None
      end
  end.

(** [v.k] for the keys the program reads ([items], [category]): no prototype
    defines them, so primitives and arrays answer [undefined]; reading a
    property of [null] or [undefined] throws. *)
Definition get_prop (v : jsval) (k : string) : result jsval :=
  match v with
  | VUndefined | VNull => Throw TypeError
  | VObj members =>
      match obj_get k members with
      | Some x => Ok x
      | None => Ok VUndefined
      end
  | VBool _ | VNum _ | VStr _ | VArr _ => Ok VUndefined
  end.

(** SameValueZero, the equality of [Set].  Objects and arrays compare by
    reference; the ones met here are distinct nodes of one parsed document,
    hence never identical. *)
Definition same_value_zero (a b : jsval) : bool :=
  match a, b with
  | VUndefined, VUndefined => true
  | VNull, VNull => true
  | VBool x, VBool y => Bool.eqb x y
  | VNum x, VNum y => Qeq_bool x y
  | VStr x, VStr y => String.eqb x y
  | _, _ => false
  end.

(** ** Insertion-ordered sets *)

Section InsertionOrder.
Context {A : Type} (same : A -> A -> bool).

(** [set.add(v)]: appended unless an equal element is already there. *)
Definition set_add (s : list A) (v : A) : list A :=
  if existsb (same v) s then s else s ++ [v].

(** [new Set(iterable)]. *)
Definition new_Set (l : list A) : list A := fold_left set_add l [].

(** De-duplication in first-seen order, as the specification words it: keep
    the head, drop its later copies, go on with the rest. *)
Fixpoint first_seen (l : list A) : list A :=
  match l with
  | [] => []
  | x :: rest => x :: filter (fun y => negb (same x y)) (first_seen rest)
  end.

End InsertionOrder.

(** [Array.from(set)]: the elements in insertion order. *)
Definition Array_from {A} (s : list A) : list A := s.

(** ** Category derivation (the [useMemo] of [App]) *)

(** [items.map(i => i.category).filter(Boolean)], then [new Set], then
    [Array.from].  [items.map] is not callable unless [items] is an array. *)
Definition categories (items : jsval) : result (list jsval) :=
  match items with
  | VArr l =>
      cats <- map_result (fun i => get_prop i "category") l ;;
      Ok (Array_from (new_Set same_value_zero (filter truthy cats)))
  | _ => Throw TypeError
  end.

(** *** The specification's reading of an item list *)

(** The category of a product: an optional string (section 3 of the
    specification); absent and [null] both count as missing. *)
Definition item_category (i : jsval) : option string :=
  match i with
  | VObj members =>
      match obj_get "category" members with
      | Some (VStr s) => Some s
      | _ => None
      end
  | _ => None
  end.

(** An item whose [category] member is absent, [null] or a string. *)
Definition product_like (i : jsval) : Prop :=
  exists members, i = VObj members /\
    (obj_get "category" members = None \/
     obj_get "category" members = Some VNull \/
     exists s, obj_get "category" members = Some (VStr s)).

(** The non-empty category values of the items, in item order. *)
Fixpoint nonempty_categories (l : list jsval) : list string :=
  match l with
  | [] => []
  | i :: rest =>
      match item_category i with
      | Some s => if String.eqb s "" then nonempty_categories rest
                  else s :: nonempty_categories rest
      | None => nonempty_categories rest
      end
  end.

(** The derived sequence in the specification's words. *)
Definition derived_categories (l : list jsval) : list string :=
  first_seen String.eqb (nonempty_categories l).

(** An item that carries just a category. *)
Definition item_of_category (c : string) : jsval := VObj [("category", VStr c)].

(** [null] or [undefined]. *)
Definition nullish (v : jsval) : bool :=
  match v with
  | VUndefined | VNull => true
  | _ => false
  end.

(** An item list the render function gets through: an array without
    [null]. *)
Definition renderable (v : jsval) : bool :=
  match v with
  | VArr l => forallb (fun i => negb (nullish i)) l
  | _ => false
  end.

(** ** Request construction *)

(** A JavaScript string is held as its bytes in UTF-8; a lone surrogate,
    for which UTF-8 proper has no place, as the three bytes [ED A0..BF xx] of
    its code point.

    [URLSearchParams] takes names and values as USVStrings: every lone
    surrogate becomes U+FFFD, bytes [EF BF BD].  The byte [ED] only ever
    leads a three-byte sequence, so the scan stays aligned. *)
Definition surrogate_lead (c : ascii) : bool := N_of_ascii c =? 237.

Definition surrogate_second (c : ascii) : bool :=
  (160 <=? N_of_ascii c) && (N_of_ascii c <=? 191).

Definition REPLACEMENT_CHARACTER : string :=
  String (ascii_of_N 239) (String (ascii_of_N 191) (String (ascii_of_N 189) "")).

Fixpoint USVString (s : string) : string :=
  match s with
  | EmptyString => ""
  | String c rest =>
      match rest with
      | String c2 (String _ rest') =>
          if surrogate_lead c && surrogate_second c2
          then REPLACEMENT_CHARACTER ++ USVString rest'
          else String c (USVString rest)
      | _ => String c (USVString rest)
      end
  end.

(** The byte serializer of [application/x-www-form-urlencoded], which
    [URLSearchParams.prototype.toString] applies to names and values: ASCII
    letters and digits and [* - . _] stay, a space becomes [+], any other byte
    is written [%XX] in upper-case hexadecimal. *)
Definition urlencoded_plain (c : ascii) : bool :=
  let n := N_of_ascii c in
  ((48 <=? n) && (n <=? 57)) || ((65 <=? n) && (n <=? 90)) ||
  ((97 <=? n) && (n <=? 122)) ||
  (n =? 42) || (n =? 45) || (n =? 46) || (n =? 95).

Definition hex_digit (n : N) : ascii :=
  match String.get (N.to_nat n) "0123456789ABCDEF" with
  | Some c => c
  | None => "0"%char
  end.

Definition urlencode_byte (c : ascii) : string :=
  let n := N_of_ascii c in
  if urlencoded_plain c then String c ""
  else if n =? 32 then "+"
  else String "%" (String (hex_digit (n / 16)) (String (hex_digit (n mod 16)) "")).

Fixpoint urlencode_bytes (s : string) : string :=
  match s with
  | EmptyString => ""
  | String c rest => urlencode_byte c ++ urlencode_bytes rest
  end.

(** What the serializer writes for a name or a value handed to [append]:
    the conversion to a USVString, then the bytes.  (Nothing reads the list
    between [append] and [toString], so the conversion is made here.) *)
Definition urlencode (s : string) : string := urlencode_bytes (USVString s).

(** A [URLSearchParams] object: its list of name-value pairs. *)
Definition URLSearchParams : Type := list (string * string).

Definition params_append (p : URLSearchParams) (name value : string) : URLSearchParams :=
  (p ++ [(name, value)])%list.

Fixpoint params_toString (p : URLSearchParams) : string :=
  match p with
  | [] => ""
  | [(k, v)] => urlencode k ++ "=" ++ urlencode v
  | (k, v) :: rest => urlencode k ++ "=" ++ urlencode v ++ "&" ++ params_toString rest
  end.

Definition has_param (name : string) (p : URLSearchParams) : bool :=
  existsb (fun kv => String.eqb (fst kv) name) p.

(** The argument of [fetchProducts]: [opts.category] and [opts.q], each a
    string or [undefined] ([None]); the call without argument is [{}]. *)
Record Opts : Type := mkOpts {
  opt_category : option string;
  opt_q : option string }.

Definition no_opts : Opts := mkOpts None None.

Definition opt_truthy (o : option string) : bool :=
  match o with
  | Some s => truthy (VStr s)
  | None => truthy VUndefined
  end.

Definition opt_text (o : option string) : string :=
  match o with
  | Some s => s
  | None => "undefined"
  end.

(** Lines 85-87: [category] is appended first, then [q]. *)
Definition build_params (opts : Opts) : URLSearchParams :=
  let params := [] in
  let params := if opt_truthy (opt_category opts)
                then params_append params "category" (opt_text (opt_category opts))
                else params in
  let params := if opt_truthy (opt_q opts)
                then params_append params "q" (opt_text (opt_q opts))
                else params in
  params.

Inductive Method : Type := GET | POST.

Record Request : Type := mkRequest {
  method : Method;
  url : string }.

(** ** Component state *)

Record AppState : Type := mkState {
  items : jsval;
  loading : bool;
  query : string;
  category : string;
  error : string }.

(** The five [useState] initial values. *)
Definition initial_state : AppState :=
  mkState (VArr []) true "" "" "".

(** A call of one of the five setters. *)
Inductive update : Type :=
| SetItems (v : jsval)
| SetLoading (b : bool)
| SetQuery (s : string)
| SetCategory (s : string)
| SetError (s : string).

Definition apply_update (st : AppState) (u : update) : AppState :=
  match u with
  | SetItems v => mkState v (loading st) (query st) (category st) (error st)
  | SetLoading b => mkState (items st) b (query st) (category st) (error st)
  | SetQuery s => mkState (items st) (loading st) s (category st) (error st)
  | SetCategory s => mkState (items st) (loading st) (query st) s (error st)
  | SetError s => mkState (items st) (loading st) (query st) (category st) s
  end.

Definition apply_updates (st : AppState) (us : list update) : AppState :=
  fold_left apply_update us st.

(** ** [fetchProducts] *)

(** How a request ends: [fetch] rejects, or it resolves with a response of
    some status whose body [res.json()] parses ([Some data]) or rejects
    ([None]).  Nothing happens to the state between the two [await]s, so they
    are one suspension here. *)
Inductive Outcome : Type :=
| Rejected
| Responded (status : N) (body : option jsval).

(** [const res = await fetch(...); const data = await res.json()]. *)
Definition awaited (o : Outcome) : result jsval :=
  match o with
  | Rejected => Throw NetworkError
  | Responded _ None => Throw SyntaxError
  | Responded _ (Some data) => Ok data
  end.

(** Setter calls before the first [await] (lines 83-84). *)
Definition issue_updates : list update := [SetLoading true; SetError ""].

(** The rest of the [try] block (lines 88-90). *)
Definition try_block (o : Outcome) : result (list update) :=
  data <- awaited o ;;
  its <- get_prop data "items" ;;
  Ok [SetItems (js_or its (VArr []))].

(** [catch] (lines 92-93) and [finally] (line 95). *)
Definition catch_updates : list update := [SetError "Failed to load products"].
Definition finally_updates : list update := [SetLoading false].

(** Setter calls after the request has settled, in program order. *)
Definition settle_updates (o : Outcome) : list update :=
  (match try_block o with
   | Ok us => us
   | Throw _ => catch_updates
   end ++ finally_updates)%list.

(** What [console.error(e)] prints. *)
Definition settle_console (o : Outcome) : list jserror :=
  match try_block o with
  | Ok _ => []
  | Throw e => [e]
  end.

(** ** The event loop *)

(** The mounted component and its environment: the React state, the clock
    (ms), the pending [setTimeout] of the debounce effect (due time and the
    [category], [query] its closure captured), the pending seed call, the
    product requests in flight (numbered in issue order), every request sent
    (with its time), the [console.error] output, the promise rejections
    nobody handled, and the rejection of the seed call while it waits: the
    promise that [finally] returns rejects only once the [fetchProducts()]
    its callback started has run to its end, that is, when that request
    settles. *)
Record World : Type := mkWorld {
  state : AppState;
  clock : N;
  timer : option (N * Opts);
  seed_pending : bool;
  issued : nat;
  in_flight : list nat;
  network : list (N * Request);
  console : list jserror;
  unhandled : list jserror;
  seed_rejection : option nat }.

Definition set_state (w : World) (st : AppState) : World :=
  mkWorld st (clock w) (timer w) (seed_pending w) (issued w) (in_flight w)
          (network w) (console w) (unhandled w) (seed_rejection w).

Definition set_clock (w : World) (t : N) : World :=
  mkWorld (state w) t (timer w) (seed_pending w) (issued w) (in_flight w)
          (network w) (console w) (unhandled w) (seed_rejection w).

Definition set_timer (w : World) (t : option (N * Opts)) : World :=
  mkWorld (state w) (clock w) t (seed_pending w) (issued w) (in_flight w)
          (network w) (console w) (unhandled w) (seed_rejection w).

Definition send (w : World) (r : Request) : World :=
  mkWorld (state w) (clock w) (timer w) (seed_pending w) (issued w) (in_flight w)
          (network w ++ [(clock w, r)])%list (console w) (unhandled w)
          (seed_rejection w).


Definition is_product_fetch (r : N * Request) : bool :=
  match method (snd r) with GET => true | POST => false end.

Definition DEBOUNCE : N := 300.

Section Backend.

(** [import.meta.env.VITE_BACKEND_URL], [None] when the build defines none. *)
Variable VITE_BACKEND_URL : option string.

Definition API_BASE : string :=
  if opt_truthy VITE_BACKEND_URL then opt_text VITE_BACKEND_URL
  else "http://localhost:8000".

Definition products_url (opts : Opts) : string :=
  API_BASE ++ "/api/products?" ++ params_toString (build_params opts).

Definition seed_url : string := API_BASE ++ "/api/seed".

(** [fetchProducts(opts)] up to its first [await]. *)
Definition fetchProducts_issue (opts : Opts) (w : World) : World :=
  let w1 := set_state w (apply_updates (state w) issue_updates) in
  let w2 := send w1 (mkRequest GET (products_url opts)) in
  mkWorld (state w2) (clock w2) (timer w2) (seed_pending w2) (S (issued w2))
          (in_flight w2 ++ [issued w2])%list (network w2) (console w2) (unhandled w2)
          (seed_rejection w2).

(** The invocation [id] is the one the callback of [finally] started after
    a rejected seed call. *)
Definition carries_seed_rejection (id : nat) (w : World) : bool :=
  match seed_rejection w with
  | Some j => Nat.eqb id j
  | None => false
  end.

(** The continuation of invocation [id] once its request has settled.  With
    it the promise of the [async] function resolves; if the callback of
    [finally] was waiting for it with a rejected seed call, the promise
    [finally] returned now rejects, and nothing handles that. *)
Definition fetchProducts_settle (id : nat) (o : Outcome) (w : World) : World :=
  if existsb (Nat.eqb id) (in_flight w) then
    mkWorld (apply_updates (state w) (settle_updates o)) (clock w) (timer w)
            (seed_pending w) (issued w)
            (filter (fun j => negb (Nat.eqb id j)) (in_flight w))
            (network w) (console w ++ settle_console o)%list
            (if carries_seed_rejection id w
             then (unhandled w ++ [NetworkError])%list else unhandled w)
            (if carries_seed_rejection id w then None else seed_rejection w)
  else w.

(** A render that throws has no error boundary above it: React unmounts
    [App] and runs the cleanup of the debounce effect (line 105).  It happens
    when a settlement replaces a list the render got through by one it does
    not get through. *)
Definition unmount (w : World) : World := set_timer w None.

(** The render that follows a settlement.  (Once unmounted the component
    shows nothing; requests still out, and the seed call, settle as
    before.) *)

Definition rerender (before after : World) : World :=
  if renderable (items (state before)) && negb (renderable (items (state after)))
  then unmount after
  else after.

(** The debounce effect (lines 103-106), run after a render in which [query]
    or [category] differs from the previous render: the cleanup clears the
    old timeout, the body sets a new one that captures the current values. *)
Definition debounce_effect (w : World) : World :=
  let cleared := set_timer w None in
  set_timer cleared
    (Some (clock w + DEBOUNCE,
           mkOpts (Some (category (state w))) (Some (query (state w))))).

(** First render and its effects, in declaration order: the seed call
    (line 100), then the debounce effect. *)
Definition blank : World :=
  mkWorld initial_state 0 None false 0%nat [] [] [] [] None.

Definition mount (w : World) : World :=
  let w1 := send w (mkRequest POST seed_url) in
  let w2 := mkWorld (state w1) (clock w1) (timer w1) true (issued w1)
                    (in_flight w1) (network w1) (console w1) (unhandled w1)
                    (seed_rejection w1) in
  debounce_effect w2.

Definition startup : World := mount blank.

(** What can happen to the mounted component. *)
Inductive Event : Type :=
| SeedSettled (response : option N)     (* the seed call: a status, or rejected *)
| Typed (v : string)                    (* [onChange] of the search box *)
| Chip (c : string)                     (* click on a category chip; [""] is All *)
| Elapse (d : N)                        (* [d] ms pass *)
| Settled (id : nat) (o : Outcome).     (* product request [id] ends *)

(** [.finally(() => fetchProducts())]: the callback runs on either outcome
    and starts invocation number [issued w].  After a rejection the promise
    [finally] returns will reject in its turn, but only when the promise the
    callback returned has settled. *)
Definition seed_settled (response : option N) (w : World) : World :=
  if seed_pending w then
    let w1 := mkWorld (state w) (clock w) (timer w) false (issued w)
                      (in_flight w) (network w) (console w) (unhandled w)
                      (match response with
                       | Some _ => seed_rejection w
                       | None => Some (issued w)
                       end) in
    fetchProducts_issue no_opts w1
  else w.

(** [setQuery(v)]: React bails out when the value is the current one; else
    the component renders again and the effect's dependencies have changed. *)
Definition typed (v : string) (w : World) : World :=
  if String.eqb v (query (state w)) then w
  else debounce_effect (set_state w (apply_update (state w) (SetQuery v))).

(** [setCategory(c)], likewise. *)
Definition chip (c : string) (w : World) : World :=
  if String.eqb c (category (state w)) then w
  else debounce_effect (set_state w (apply_update (state w) (SetCategory c))).

(** Time passes; a timeout that falls due runs its callback
    [fetchProducts({category, q: query})] at its due time, once. *)
Definition elapse (d : N) (w : World) : World :=
  let t := clock w + d in
  match timer w with
  | Some (due, opts) =>
      if due <=? t then
        set_clock (fetchProducts_issue opts (set_timer (set_clock w (N.max (clock w) due)) None)) t
      else set_clock w t
  | None => set_clock w t
  end.

Definition step (w : World) (e : Event) : World :=
  match e with
  | SeedSettled r => seed_settled r w
  | Typed v => typed v w
  | Chip c => chip c w
  | Elapse d => elapse d w
  | Settled id o => rerender w (fetchProducts_settle id o w)
  end.

Definition run (w : World) (tr : list Event) : World := fold_left step tr w.

End Backend.

(** ** Rendering *)

(** What [<main>] shows below the chips. *)
Inductive Block : Type :=
| Banner (message : string)     (* the red error box *)
| Skeletons (n : nat)           (* the pulsing placeholders *)
| NoResults                     (* "No products found" *)
| Grid (cards : list jsval).    (* one [ProductCard] per item *)

Record Page : Type := mkPage {
  page_chips : list jsval;
  page_main : list Block }.

(** Lines 133-150: [{error && banner}] followed by the ternary on [loading]
    and [items.length === 0]. *)
Definition main_blocks (is_loading : bool) (message : string) (l : list jsval)
  : list Block :=
  ((if truthy (VStr message) then [Banner message] else []) ++
   [if is_loading then Skeletons 8
    else if Nat.eqb (length l) 0 then NoResults
    else Grid l])%list.

(** One render of [App]: the memoised categories first, then the markup. *)
Definition render (st : AppState) : result Page :=
  cats <- categories (items st) ;;
  match items st with
  | VArr l => Ok (mkPage cats (main_blocks (loading st) (error st) l))
  | _ => Throw TypeError
  end.

(** View selection in the specification's words: one view, by priority. *)
Definition exclusive_view (is_loading : bool) (message : string) (l : list jsval)
  : Block :=
  if is_loading then Skeletons 8
  else if negb (String.eqb message "") then Banner message
  else match l with
       | [] => NoResults
       | _ :: _ => Grid l
       end.

(** ** Bursts of query-state changes *)






(** The item list a settled request delivers, if it delivers one. *)
Definition delivered (o : Outcome) : option jsval :=
  match try_block o with
  | Ok [SetItems v] => Some v
  | _ => None
  end.






Section Traces.
Variable VITE_BACKEND_URL : option string.



(** The loading flag covers every request in flight: the reading of
    "loading is true from issuance to settlement" over all runs. *)
Definition loading_covers_requests : Prop :=
  forall (tr : list Event) (id : nat),
    In id (in_flight (run VITE_BACKEND_URL (startup VITE_BACKEND_URL) tr)) ->
    loading (state (run VITE_BACKEND_URL (startup VITE_BACKEND_URL) tr)) = true.

End Traces.

(** A request certainly fails when [fetch] rejects or the body does not
    parse. *)
Definition transport_failure (o : Outcome) : Prop :=
  o = Rejected \/ exists status, o = Responded status None.

(** [needle] occurs in [hay]. *)
Definition occurs_in (needle hay : string) : bool :=
  match String.index 0 needle hay with
  | Some _ => true
  | None => false
  end.

(** ** Vocabulary of the properties *)

(** The update lowers the loading flag. *)
Definition clears_loading (u : update) : bool :=
  match u with
  | SetLoading false => true
  | _ => false
  end.

(** No product request settles in the trace. *)
Definition no_settlement (tr : list Event) : bool :=
  forallb (fun e => match e with Settled _ _ => false | _ => true end) tr.



(** The list on display after a settlement that found [before]. *)
Definition shown_after (before : jsval) (o : Outcome) : jsval :=
  match delivered o with
  | Some l => l
  | None => before
  end.

(** ** [CategoryChips] *)

(** One button of the chip row: its label ([None] is the "All" button), the
    value its click passes to [setActive], and whether it is drawn
    highlighted. *)
Record ChipButton : Type := mkChip {
  chip_label : option jsval;
  chip_sets : jsval;
  chip_active : bool }.

(** [active === c] for the string [active]. *)
Definition strict_equal (active : string) (c : jsval) : bool :=
  match c with
  | VStr s => String.eqb active s
  | _ => false
  end.

(** Lines 58-67: the "All" button, then one button per category. *)
Definition CategoryChips (active : string) (cats : list jsval) : list ChipButton :=
  mkChip None (VStr "") (String.eqb active "") ::
  map (fun c => mkChip (Some c) c (strict_equal active c)) cats.

(** ** Vocabulary of the further properties *)

(** How often a character occurs in a string. *)
Fixpoint count_char (c : ascii) (s : string) : nat :=
  match s with
  | EmptyString => 0%nat
  | String x rest => ((if Ascii.eqb x c then 1 else 0) + count_char c rest)%nat
  end.

(** Every character is one the serializer leaves as it is. *)
Fixpoint plain_text (s : string) : bool :=
  match s with
  | EmptyString => true
  | String x rest => urlencoded_plain x && plain_text rest
  end.

(** Reading one serialized byte back from the front of a string: the inverse
    of [urlencode_byte], used to show that the serializer loses nothing. *)
Definition hex_value (c : ascii) : option N :=
  let n := N_of_ascii c in
  if (48 <=? n) && (n <=? 57) then Some (n - 48)
  else if (65 <=? n) && (n <=? 70) then Some (n - 55)
  else None.

Definition decode_head (s : string) : option (ascii * string) :=
  match s with
  | EmptyString => None
  | String c rest =>
      if Ascii.eqb c "%" then
        match rest with
        | String a (String b rest') =>
            match hex_value a, hex_value b with
            | Some x, Some y => Some (ascii_of_N (16 * x + y), rest')
            | _, _ => None
            end
        | _ => None
        end
      else if Ascii.eqb c "+" then Some (" "%char, rest)
      else Some (c, rest)
  end.

(** The event is a change of the search box or of the chips. *)
Definition is_change (e : Event) : bool :=
  match e with
  | Typed _ | Chip _ => true
  | SeedSettled _ | Elapse _ | Settled _ _ => false
  end.

(** The number of product fetches a world has sent. *)
Definition fetches_sent (w : World) : nat :=
  length (filter is_product_fetch (network w)).

(** A pending timeout carries the current category and term and is due
    later than now, at most one delay ahead. *)
Definition timer_current (w : World) : Prop :=
  match timer w with
  | Some (due, o) =>
      o = mkOpts (Some (category (state w))) (Some (query (state w))) /\
      clock w < due /\ due <= clock w + DEBOUNCE
  | None => True
  end.

(** Nothing is outstanding: the seed call has settled and no product
    request is in flight. *)
Definition settled_down (w : World) : bool :=
  negb (seed_pending w) &&
  match in_flight w with [] => true | _ :: _ => false end.

(** * Properties *)

Open Scope list_scope.

(** ** Insertion order and first-seen order *)

Section InsertionOrderFacts.
Context {A : Type} (same : A -> A -> bool).
Hypothesis same_sym : forall a b, same a b = same b a.
Hypothesis same_trans : forall a b c, same a b = true -> same b c = true -> same a c = true.

Lemma filter_twice (f g : A -> bool) (l : list A) :
  filter f (filter g l) = filter (fun x => g x && f x) l.
Proof.
  induction l as [|x l IH]; simpl; [reflexivity|].
  destruct (g x); simpl; [destruct (f x)|]; rewrite IH; reflexivity.
Qed.

Lemma existsb_same_trans (x y : A) (acc : list A) :
  same x y = true -> existsb (same x) acc = true -> existsb (same y) acc = true.
Proof.
  intros Hxy Hx. apply existsb_exists in Hx as [z [Hin Hz]].
  apply existsb_exists. exists z. split; [assumption|].
  apply same_trans with x; [rewrite same_sym|]; assumption.
Qed.

(** Folding [set_add] from an accumulator appends the first-seen elements the
    accumulator does not have yet. *)
Lemma fold_set_add (l acc : list A) :
  fold_left (set_add same) l acc =
  acc ++ filter (fun y => negb (existsb (same y) acc)) (first_seen same l).
Proof.
  revert acc. induction l as [|x l IH]; intro acc; simpl.
  - symmetry. apply app_nil_r.
  - unfold set_add at 2. destruct (existsb (same x) acc) eqn:Hx; simpl.
    + rewrite IH, filter_twice. f_equal. apply filter_ext_in. intros y _.
      destruct (same x y) eqn:Hxy; simpl; [|reflexivity].
      rewrite (existsb_same_trans x y acc Hxy Hx). reflexivity.
    + rewrite IH, <- app_assoc, filter_twice. simpl. do 2 f_equal.
      apply filter_ext. intro y.
      rewrite existsb_app. simpl. rewrite orb_false_r, negb_orb, (same_sym y x).
      apply andb_comm.
Qed.

Lemma new_Set_first_seen (l : list A) : new_Set same l = first_seen same l.
Proof.
  unfold new_Set. rewrite fold_set_add. simpl.
  induction (first_seen same l) as [|x r IH]; simpl; [reflexivity|].
  f_equal. exact IH.
Qed.

End InsertionOrderFacts.

(** ** Category derivation *)

Lemma same_value_zero_sym (a b : jsval) : same_value_zero a b = same_value_zero b a.
Proof.
  destruct a, b; simpl; try reflexivity.
  - destruct b, b0; reflexivity.
  - unfold Qeq_bool. apply Z.eqb_sym.
  - apply String.eqb_sym.
Qed.

Lemma same_value_zero_trans (a b c : jsval) :
  same_value_zero a b = true -> same_value_zero b c = true ->
  same_value_zero a c = true.
Proof.
  destruct a, b; simpl; try discriminate; destruct c; simpl; try discriminate;
    try reflexivity.
  - destruct b, b0, b1; simpl; congruence.
  - apply Qeq_bool_trans.
  - rewrite !String.eqb_eq. congruence.
Qed.

Lemma first_seen_strings (ss : list string) :
  first_seen same_value_zero (map VStr ss) = map VStr (first_seen String.eqb ss).
Proof.
  induction ss as [|x ss IH]; simpl; [reflexivity|].
  f_equal. rewrite IH. generalize (first_seen String.eqb ss). intro r.
  induction r as [|y r IHr]; simpl; [reflexivity|].
  destruct (String.eqb x y); simpl; rewrite IHr; reflexivity.
Qed.

Lemma first_seen_In (ss : list string) (c : string) :
  In c (first_seen String.eqb ss) <-> In c ss.
Proof.
  induction ss as [|x ss IH]; simpl; [tauto|].
  rewrite filter_In, IH, negb_true_iff, String.eqb_neq.
  destruct (string_dec x c); intuition congruence.
Qed.

Lemma first_seen_NoDup (ss : list string) : NoDup (first_seen String.eqb ss).
Proof.
  induction ss as [|x ss IH]; simpl; constructor.
  - rewrite filter_In, String.eqb_refl. simpl. intros [_ H]. discriminate.
  - apply NoDup_filter. exact IH.
Qed.

Lemma first_seen_fixed (ss : list string) :
  NoDup ss -> first_seen String.eqb ss = ss.
Proof.
  induction 1 as [|x ss Hx Hnd IH]; simpl; [reflexivity|].
  rewrite IH. f_equal. apply forallb_filter_id. apply forallb_forall.
  intros y Hy. apply negb_true_iff, String.eqb_neq. congruence.
Qed.

Lemma nonempty_categories_In (l : list jsval) (c : string) :
  In c (nonempty_categories l) <->
  c <> "" /\ exists i, In i l /\ item_category i = Some c.
Proof.
  induction l as [|i l IH]; simpl.
  - split; [tauto|]. intros [_ [i [[] _]]].
  - destruct (item_category i) as [s|] eqn:Hi.
    + destruct (String.eqb_spec s "") as [He|He]; simpl; rewrite IH; split.
      * intros [Hc [j [Hj Hcat]]]. split; [assumption|]. exists j. tauto.
      * intros [Hc [j [[Hj|Hj] Hcat]]].
        -- subst j. congruence.
        -- split; [assumption|]. exists j. tauto.
      * intros [Hs|[Hc [j [Hj Hcat]]]].
        -- subst c. split; [assumption|]. exists i. tauto.
        -- split; [assumption|]. exists j. tauto.
      * intros [Hc [j [[Hj|Hj] Hcat]]].
        -- subst j. left. congruence.
        -- right. split; [assumption|]. exists j. tauto.
    + rewrite IH. split.
      * intros [Hc [j [Hj Hcat]]]. split; [assumption|]. exists j. tauto.
      * intros [Hc [j [[Hj|Hj] Hcat]]].
        -- subst j. congruence.
        -- split; [assumption|]. exists j. tauto.
Qed.

(** On well-formed items the mapped and filtered column is the column of
    non-empty category strings. *)
Lemma category_column (l : list jsval) :
  Forall product_like l ->
  exists cats,
    map_result (fun i => get_prop i "category") l = Ok cats /\
    filter truthy cats = map VStr (nonempty_categories l).
Proof.
  induction 1 as [|i l Hi Hl [cats [Hmap Hfil]]]; simpl.
  - exists []. split; reflexivity.
  - rewrite Hmap. destruct Hi as [members [-> Hcat]]. unfold item_category. simpl.
    destruct Hcat as [Hc|[Hc|[s Hc]]]; rewrite Hc; simpl.
    + exists (VUndefined :: cats). split; [reflexivity|exact Hfil].
    + exists (VNull :: cats). split; [reflexivity|exact Hfil].
    + exists (VStr s :: cats). split; [reflexivity|]. simpl.
      destruct (String.eqb s ""); simpl; [|f_equal]; exact Hfil.
Qed.

Lemma categories_product_like (l : list jsval) :
  Forall product_like l ->
  categories (VArr l) = Ok (map VStr (derived_categories l)).
Proof.
  intro Hl. destruct (category_column l Hl) as [cats [Hmap Hfil]].
  unfold categories, derived_categories, Array_from. rewrite Hmap. simpl.
  rewrite Hfil.
  rewrite (new_Set_first_seen same_value_zero same_value_zero_sym same_value_zero_trans).
  rewrite first_seen_strings. reflexivity.
Qed.

Lemma items_of_categories (cs : list string) :
  Forall product_like (map item_of_category cs) /\
  nonempty_categories (map item_of_category cs) =
  filter (fun s => negb (String.eqb s "")) cs.
Proof.
  induction cs as [|c cs [IH1 IH2]]; simpl; [split; [constructor|reflexivity]|].
  split.
  - constructor; [|exact IH1]. exists [("category", VStr c)].
    split; [reflexivity|]. right. right. exists c. reflexivity.
  - destruct (String.eqb c ""); simpl; rewrite IH2; reflexivity.
Qed.

(** C2.  For every list of items whose category is an optional string, the
    derived category sequence is the non-empty category values of the items,
    de-duplicated, in first-seen order: it has no duplicate and no empty
    entry, and holds exactly the non-empty categories that occur.  The
    derivation depends on the list only, and deriving again from the derived
    categories gives the same sequence.  For categories
    [A, B, A, "", C, B] it yields [A, B, C]. *)
Theorem categories_first_seen_order (l : list jsval) :
  Forall product_like l ->
  categories (VArr l) = Ok (map VStr (derived_categories l)) /\
  NoDup (derived_categories l) /\
  ~ In "" (derived_categories l) /\
  (forall c, In c (derived_categories l) <->
             c <> "" /\ exists i, In i l /\ item_category i = Some c) /\
  categories (VArr (map item_of_category (derived_categories l))) =
    Ok (map VStr (derived_categories l)) /\
  (forall A B C : string,
      A <> "" -> B <> "" -> C <> "" -> A <> B -> A <> C -> B <> C ->
      categories (VArr (map item_of_category [A; B; A; ""; C; B])) =
      Ok [VStr A; VStr B; VStr C]).
Proof.
  intro Hl.
  assert (Hmem : forall c, In c (derived_categories l) <->
             c <> "" /\ exists i, In i l /\ item_category i = Some c).
  { intro c. unfold derived_categories.
    rewrite first_seen_In. apply nonempty_categories_In. }
  assert (Hne : ~ In "" (derived_categories l)).
  { intro H. apply Hmem in H. destruct H as [H _]. apply H. reflexivity. }
  split; [|split; [|split; [|split; [|split]]]].
  - apply categories_product_like. exact Hl.
  - apply first_seen_NoDup.
  - exact Hne.
  - exact Hmem.
  - destruct (items_of_categories (derived_categories l)) as [Hpl Hcs].
    rewrite (categories_product_like _ Hpl). unfold derived_categories at 1.
    rewrite Hcs. do 2 f_equal.
    rewrite forallb_filter_id.
    + apply first_seen_fixed, first_seen_NoDup.
    + apply forallb_forall. intros c Hc. apply negb_true_iff, String.eqb_neq.
      intro He. subst c. exact (Hne Hc).
  - intros A B C HA HB HC HAB HAC HBC.
    destruct (items_of_categories [A; B; A; ""; C; B]) as [Hpl Hcs].
    rewrite (categories_product_like _ Hpl). unfold derived_categories.
    rewrite Hcs. simpl.
    apply String.eqb_neq in HA, HB, HC. rewrite HA, HB, HC. simpl.
    assert (HBA : B <> A) by congruence.
    assert (HCA : C <> A) by congruence.
    assert (HCB : C <> B) by congruence.
    apply String.eqb_neq in HAB, HAC, HBC, HBA, HCA, HCB.
    repeat (rewrite ?String.eqb_refl, ?HAB, ?HAC, ?HBC, ?HBA, ?HCA, ?HCB;
            simpl).
    reflexivity.
Qed.

Lemma categories_first_seen_order_witness :
  Forall product_like (map item_of_category ["A"; "B"; "A"; ""; "C"; "B"]) /\
  categories (VArr (map item_of_category ["A"; "B"; "A"; ""; "C"; "B"])) =
  Ok [VStr "A"; VStr "B"; VStr "C"].
Proof.
  split.
  - exact (proj1 (items_of_categories ["A"; "B"; "A"; ""; "C"; "B"])).
  - exact (proj1 (categories_first_seen_order
             (map item_of_category ["A"; "B"; "A"; ""; "C"; "B"])
             (proj1 (items_of_categories ["A"; "B"; "A"; ""; "C"; "B"])))).
Defined.

(** ** Settlement of a product request *)

Lemma in_flight_found (id : nat) (l : list nat) :
  In id l -> existsb (Nat.eqb id) l = true.
Proof.
  intro H. apply existsb_exists. exists id. split; [exact H|apply Nat.eqb_refl].
Qed.

Lemma settle_state (w : World) (id : nat) (o : Outcome) :
  In id (in_flight w) ->
  state (fetchProducts_settle id o w) = apply_updates (state w) (settle_updates o).
Proof.
  intro H. unfold fetchProducts_settle. rewrite (in_flight_found _ _ H). reflexivity.
Qed.

Lemma settle_updates_failure (o : Outcome) (e : jserror) :
  try_block o = Throw e ->
  settle_updates o = [SetError "Failed to load products"; SetLoading false].
Proof. intro H. unfold settle_updates. rewrite H. reflexivity. Qed.

Lemma settle_updates_success (o : Outcome) (us : list update) :
  try_block o = Ok us -> settle_updates o = us ++ [SetLoading false].
Proof. intro H. unfold settle_updates. rewrite H. reflexivity. Qed.

Lemma transport_failure_throws (o : Outcome) :
  transport_failure o -> exists e, try_block o = Throw e.
Proof.
  intros [->|[status ->]]; [exists NetworkError|exists SyntaxError]; reflexivity.
Qed.

Lemma get_prop_not_nullish (data : jsval) (k : string) :
  nullish data = false -> exists v, get_prop data k = Ok v.
Proof.
  destruct data; simpl; try discriminate; intros _; eauto.
  destruct (obj_get k members); eauto.
Qed.

Lemma settle_loading_false (o : Outcome) (st : AppState) :
  loading (apply_updates st (settle_updates o)) = false.
Proof.
  unfold settle_updates, apply_updates. rewrite fold_left_app. reflexivity.
Qed.

Lemma settle_updates_shape (o : Outcome) :
  exists pre, settle_updates o = pre ++ [SetLoading false] /\
              filter clears_loading (issue_updates ++ pre) = [].
Proof.
  unfold settle_updates. destruct (try_block o) as [us|e] eqn:Ht.
  - exists us. split; [reflexivity|].
    unfold try_block in Ht. destruct (awaited o) as [data|]; simpl in Ht; [|discriminate].
    destruct (get_prop data "items"); simpl in Ht; [|discriminate].
    injection Ht as <-. reflexivity.
  - exists catch_updates. split; reflexivity.
Qed.

Lemma try_block_shape (o : Outcome) (us : list update) :
  try_block o = Ok us -> exists v, us = [SetItems v].
Proof.
  unfold try_block. destruct (awaited o) as [data|]; simpl; [|discriminate].
  destruct (get_prop data "items") as [its|]; simpl; [|discriminate].
  intro H. injection H as <-. eexists. reflexivity.
Qed.

Lemma settle_keeps_query (o : Outcome) (st : AppState) :
  query (apply_updates st (settle_updates o)) = query st /\
  category (apply_updates st (settle_updates o)) = category st.
Proof.
  unfold settle_updates. destruct (try_block o) as [us|e] eqn:Ht.
  - destruct (try_block_shape o us Ht) as [v ->]. split; reflexivity.
  - split; reflexivity.
Qed.

(** A settlement touches neither the timeout, the network, the clock nor
    the query state. *)
Lemma settle_frame (id : nat) (o : Outcome) (w : World) :
  timer (fetchProducts_settle id o w) = timer w /\
  network (fetchProducts_settle id o w) = network w /\
  clock (fetchProducts_settle id o w) = clock w /\
  query (state (fetchProducts_settle id o w)) = query (state w) /\
  category (state (fetchProducts_settle id o w)) = category (state w).
Proof.
  unfold fetchProducts_settle.
  destruct (existsb (Nat.eqb id) (in_flight w)); simpl; [|tauto].
  destruct (settle_keeps_query o (state w)) as [Hq Hc]. tauto.
Qed.

Lemma settle_items (id : nat) (o : Outcome) (w : World) :
  In id (in_flight w) ->
  items (state (fetchProducts_settle id o w)) = shown_after (items (state w)) o.
Proof.
  intro Hin. rewrite (settle_state w id o Hin).
  unfold shown_after, delivered, settle_updates.
  destruct (try_block o) as [us|e] eqn:Ht; [|reflexivity].
  destruct (try_block_shape o us Ht) as [v ->]. reflexivity.
Qed.


(** Unmounting clears the timeout and nothing else. *)
Lemma rerender_state (a b : World) : state (rerender a b) = state b.
Proof. unfold rerender. destruct (_ && _); reflexivity. Qed.

Lemma rerender_network (a b : World) : network (rerender a b) = network b.
Proof. unfold rerender. destruct (_ && _); reflexivity. Qed.

Lemma rerender_console (a b : World) : console (rerender a b) = console b.
Proof. unfold rerender. destruct (_ && _); reflexivity. Qed.

Lemma rerender_in_flight (a b : World) : in_flight (rerender a b) = in_flight b.
Proof. unfold rerender. destruct (_ && _); reflexivity. Qed.

Lemma rerender_clock (a b : World) : clock (rerender a b) = clock b.
Proof. unfold rerender. destruct (_ && _); reflexivity. Qed.

Lemma rerender_seed_pending (a b : World) :
  seed_pending (rerender a b) = seed_pending b.
Proof. unfold rerender. destruct (_ && _); reflexivity. Qed.

Lemma rerender_timer (a b : World) :
  timer (rerender a b) = timer b \/ timer (rerender a b) = None.
Proof. unfold rerender. destruct (_ && _); [right|left]; reflexivity. Qed.

Lemma rerender_same_items (a b : World) :
  items (state b) = items (state a) -> rerender a b = b.
Proof.
  intro H. unfold rerender. rewrite H.
  destruct (renderable (items (state a))); reflexivity.
Qed.

Section Runs.
Variable env : option string.

Lemma issue_loading (opts : Opts) (w : World) :
  loading (state (fetchProducts_issue env opts w)) = true /\
  error (state (fetchProducts_issue env opts w)) = "" /\
  in_flight (fetchProducts_issue env opts w) = in_flight w ++ [issued w].
Proof. repeat split. Qed.

(** A step that settles nothing leaves a raised loading flag raised and
    keeps every request in flight. *)
Lemma step_keeps_loading (w : World) (e : Event) (id : nat) :
  no_settlement [e] = true ->
  loading (state w) = true -> In id (in_flight w) ->
  loading (state (step env w e)) = true /\ In id (in_flight (step env w e)).
Proof.
  intros He Hl Hin. destruct e as [r|v|c|d|j o]; simpl in *; try discriminate.
  - unfold seed_settled. destruct (seed_pending w); [|tauto]. simpl.
    split; [reflexivity|]. apply in_or_app. tauto.
  - unfold typed. destruct (String.eqb v (query (state w))); simpl; tauto.
  - unfold chip. destruct (String.eqb c (category (state w))); simpl; tauto.
  - unfold elapse. destruct (timer w) as [[due opts]|]; simpl; [|tauto].
    destruct (due <=? clock w + d); simpl; [|tauto].
    split; [reflexivity|]. apply in_or_app. tauto.
Qed.

Lemma run_keeps_loading (tr : list Event) (w : World) (id : nat) :
  no_settlement tr = true ->
  loading (state w) = true -> In id (in_flight w) ->
  loading (state (run env w tr)) = true /\ In id (in_flight (run env w tr)).
Proof.
  revert w. induction tr as [|e tr IH]; intros w Hq Hl Hin; simpl; [tauto|].
  simpl in Hq. apply andb_prop in Hq as [He Hq].
  destruct (step_keeps_loading w e id) as [Hl' Hin']; try assumption.
  { simpl. rewrite He. reflexivity. }
  apply IH; assumption.
Qed.

End Runs.

(** ** The loading flag *)

Lemma no_settlement_prefix (k : nat) (tr : list Event) :
  no_settlement tr = true -> no_settlement (firstn k tr) = true.
Proof.
  unfold no_settlement. revert k. induction tr as [|e tr IH]; intros k H.
  - destruct k; reflexivity.
  - destruct k; [reflexivity|]. simpl in *.
    apply andb_prop in H as [He H]. rewrite He. simpl. apply IH. exact H.
Qed.

(** Two overlapping requests: the first to settle lowers the flag while the
    second is still in flight. *)
Lemma loading_lowered_while_in_flight :
  ~ loading_covers_requests None.
Proof.
  intro H.
  pose (tr := [Elapse 100; SeedSettled (Some 200); Elapse 200;
               Settled 0 (Responded 200 (Some (VObj [("items", VArr [])])))]).
  assert (Hin : In 1%nat (in_flight (run None (startup None) tr))).
  { vm_compute. left. reflexivity. }
  apply H in Hin. vm_compute in Hin. discriminate Hin.
Qed.

(** C3, amended.  Every invocation of [fetchProducts] raises the loading flag
    at issuance, as its first state update; the flag then stays raised for as
    long as no request settles; when the invocation's own request settles,
    with whatever outcome, the flag is lowered, and the invocation lowers it
    exactly once, as its last state update. *)
Theorem loading_flag_of_one_invocation
  (env : option string) (opts : Opts) (w : World) (tr : list Event) (o : Outcome) :
  no_settlement tr = true ->
  let id := issued w in
  let w1 := fetchProducts_issue env opts w in
  let w2 := run env w1 tr in
  let w3 := step env w2 (Settled id o) in
  hd_error issue_updates = Some (SetLoading true) /\
  loading (state w1) = true /\
  (forall k, loading (state (run env w1 (firstn k tr))) = true) /\
  In id (in_flight w2) /\
  loading (state w3) = false /\
  (exists pre, settle_updates o = pre ++ [SetLoading false] /\
               filter clears_loading (issue_updates ++ pre) = []).
Proof.
  intros Hq id w1 w2 w3.
  assert (Hin1 : In id (in_flight w1)).
  { unfold w1. simpl. apply in_or_app. right. left. reflexivity. }
  split; [reflexivity|]. split; [reflexivity|]. split; [|split; [|split]].
  - intro k. apply (run_keeps_loading env (firstn k tr) w1 id).
    + apply no_settlement_prefix. exact Hq.
    + reflexivity.
    + exact Hin1.
  - apply (run_keeps_loading env tr w1 id); [exact Hq|reflexivity|exact Hin1].
  - unfold w3. simpl. rewrite rerender_state, settle_state.
    + apply settle_loading_false.
    + apply (run_keeps_loading env tr w1 id); [exact Hq|reflexivity|exact Hin1].
  - apply settle_updates_shape.
Qed.

Lemma loading_flag_of_one_invocation_witness :
  no_settlement [Elapse 300; Typed "shoe"; Elapse 120] = true /\
  loading (state (step None
                    (run None (fetchProducts_issue None no_opts (startup None))
                         [Elapse 300; Typed "shoe"; Elapse 120])
                    (Settled 0 Rejected))) = false.
Proof.
  split; [reflexivity|].
  exact (proj1 (proj2 (proj2 (proj2 (proj2
    (loading_flag_of_one_invocation None no_opts (startup None)
       [Elapse 300; Typed "shoe"; Elapse 120] Rejected eq_refl)))))).
Defined.

(** ** Failing requests *)

(** C4.  When a request in flight fails (the network request rejects or the
    body does not parse), the item list is left as it was; the only state
    updates are the generic error message "Failed to load products" and the
    lowering of the loading flag; the error itself goes to the console. *)
Theorem failing_fetch_keeps_items
  (env : option string) (w : World) (id : nat) (o : Outcome) :
  In id (in_flight w) ->
  transport_failure o ->
  let w' := step env w (Settled id o) in
  settle_updates o = [SetError "Failed to load products"; SetLoading false] /\
  items (state w') = items (state w) /\
  error (state w') = "Failed to load products" /\
  loading (state w') = false /\
  query (state w') = query (state w) /\
  category (state w') = category (state w) /\
  timer w' = timer w /\
  network w' = network w /\
  exists e, console w' = console w ++ [e].
Proof.
  intros Hin Hf w'. destruct (transport_failure_throws o Hf) as [e He].
  pose proof (settle_updates_failure o e He) as Hu.
  assert (Hst : state (fetchProducts_settle id o w) =
                apply_updates (state w) (settle_updates o)).
  { apply settle_state. exact Hin. }
  assert (Hw : w' = fetchProducts_settle id o w).
  { unfold w'. simpl. apply rerender_same_items. rewrite Hst, Hu. reflexivity. }
  split; [exact Hu|]. rewrite Hw, Hst, Hu.
  repeat (split; [reflexivity|]).
  unfold fetchProducts_settle.
  rewrite (in_flight_found _ _ Hin). simpl.
  repeat (split; [reflexivity|]).
  exists e. unfold settle_console. rewrite He. reflexivity.
Qed.

Lemma failing_fetch_keeps_items_witness :
  let w := run None (startup None)
             [SeedSettled (Some 200);
              Settled 0 (Responded 200
                (Some (VObj [("items", VArr [item_of_category "Shoes"])])));
              Typed "boot"; Elapse 300] in
  In 1%nat (in_flight w) /\ transport_failure Rejected /\
  items (state (step None w (Settled 1 Rejected))) = VArr [item_of_category "Shoes"] /\
  error (state (step None w (Settled 1 Rejected))) = "Failed to load products".
Proof.
  intro w.
  assert (Hin : In 1%nat (in_flight w)) by (vm_compute; left; reflexivity).
  assert (Hf : transport_failure Rejected) by (left; reflexivity).
  split; [exact Hin|]. split; [exact Hf|].
  pose proof (failing_fetch_keeps_items None w 1%nat Rejected Hin Hf) as H.
  split.
  - exact (proj1 (proj2 H)).
  - exact (proj1 (proj2 (proj2 H))).
Defined.

(** ** Request parameters *)

(** With both values set the query string lists [category] first: the text
    [q=shoe&category=Electronics] occurs nowhere in the URL. *)
Lemma request_lists_category_first :
  occurs_in "q=shoe&category=Electronics"
    (products_url None (mkOpts (Some "Electronics") (Some "shoe"))) = false /\
  products_url None (mkOpts (Some "Electronics") (Some "shoe")) =
    "http://localhost:8000/api/products?category=Electronics&q=shoe"%string.
Proof. split; vm_compute; reflexivity. Qed.

(** C5, amended.  The request carries the [q] parameter exactly when the term
    is non-empty and the [category] parameter exactly when the category is
    non-empty, each with the value given, [category] before [q]; the call
    without argument carries none.  For term "shoe" and category
    "Electronics" the query string is [category=Electronics&q=shoe]. *)
Theorem request_parameters (env : option string) (term cat : string) :
  let opts := mkOpts (Some cat) (Some term) in
  build_params opts =
    (if String.eqb cat "" then [] else [("category"%string, cat)]) ++
    (if String.eqb term "" then [] else [("q"%string, term)]) /\
  has_param "q" (build_params opts) = negb (String.eqb term "") /\
  has_param "category" (build_params opts) = negb (String.eqb cat "") /\
  products_url env opts =
    (API_BASE env ++ "/api/products?" ++ params_toString (build_params opts))%string /\
  build_params no_opts = [] /\
  products_url env (mkOpts (Some "Electronics") (Some "shoe")) =
    (API_BASE env ++ "/api/products?category=Electronics&q=shoe")%string.
Proof.
  intro opts.
  assert (Hb : build_params opts =
    (if String.eqb cat "" then [] else [("category"%string, cat)]) ++
    (if String.eqb term "" then [] else [("q"%string, term)])).
  { unfold opts, build_params, params_append. simpl.
    destruct (String.eqb cat ""), (String.eqb term ""); reflexivity. }
  split; [exact Hb|].
  split; [|split; [|split; [reflexivity|split; reflexivity]]].
  - rewrite Hb. destruct (String.eqb cat ""), (String.eqb term ""); reflexivity.
  - rewrite Hb. destruct (String.eqb cat ""), (String.eqb term ""); reflexivity.
Qed.

(** ** View selection *)

Lemma step_loading_no_error (env : option string) (w : World) (e : Event) :
  loading (state w) && negb (String.eqb (error (state w)) "") = false ->
  loading (state (step env w e)) &&
  negb (String.eqb (error (state (step env w e))) "") = false.
Proof.
  intro H. destruct e as [r|v|c|d|j o]; simpl.
  - unfold seed_settled. destruct (seed_pending w); [reflexivity|exact H].
  - unfold typed. destruct (String.eqb v (query (state w))); exact H.
  - unfold chip. destruct (String.eqb c (category (state w))); exact H.
  - unfold elapse. destruct (timer w) as [[due opts]|]; simpl; [|exact H].
    destruct (due <=? clock w + d); [reflexivity|exact H].
  - rewrite rerender_state. unfold fetchProducts_settle.
    destruct (existsb (Nat.eqb j) (in_flight w)); [|exact H].
    simpl. rewrite settle_loading_false. reflexivity.
Qed.

Lemma run_loading_no_error (env : option string) (tr : list Event) (w : World) :
  loading (state w) && negb (String.eqb (error (state w)) "") = false ->
  loading (state (run env w tr)) &&
  negb (String.eqb (error (state (run env w tr))) "") = false.
Proof.
  revert w. induction tr as [|e tr IH]; intros w H; simpl; [exact H|].
  apply IH, step_loading_no_error, H.
Qed.

(** After a failed first request the banner and the "no results" box are
    both on the page: two views, where the priority list allows one. *)
Lemma banner_shown_with_no_results :
  render (state (run None (startup None)
                     [SeedSettled (Some 200); Settled 0 Rejected])) =
    Ok (mkPage [] [Banner "Failed to load products"; NoResults]) /\
  main_blocks false "Failed to load products" [] <>
    [exclusive_view false "Failed to load products" []].
Proof. split; [vm_compute; reflexivity|discriminate]. Qed.

(** C7, amended.  For every loading flag, error message and item list the
    page shows exactly one of: 8 placeholder skeletons when loading; else the
    "no results" box when the list is empty; else the populated grid.  The
    error banner is not an alternative in that choice: it is shown above the
    chosen view whenever the error message is non-empty.  Without an error
    message the page is the single view of the priority list, and in every
    run of the component the message is empty while the flag is raised. *)
Theorem view_selection (is_loading : bool) (message : string) (l : list jsval) :
  main_blocks is_loading message l =
    (if String.eqb message "" then [] else [Banner message]) ++
    [if is_loading then Skeletons 8
     else match l with [] => NoResults | _ :: _ => Grid l end] /\
  main_blocks is_loading "" l = [exclusive_view is_loading "" l] /\
  (forall q c, render (mkState (VArr l) is_loading q c message) =
               (cats <- categories (VArr l) ;;
                Ok (mkPage cats (main_blocks is_loading message l)))) /\
  (forall env tr,
      loading (state (run env (startup env) tr)) &&
      negb (String.eqb (error (state (run env (startup env) tr))) "") = false).
Proof.
  split; [|split; [|split]].
  - unfold main_blocks. simpl. destruct (String.eqb message ""); simpl;
      destruct is_loading, l; reflexivity.
  - destruct is_loading, l; reflexivity.
  - intros q c. unfold render. simpl.
    destruct (map_result (fun i => get_prop i "category") l); reflexivity.
  - intros env tr. apply run_loading_no_error. reflexivity.
Qed.

(** ** Parsed bodies and the HTTP status *)

(** A body that parses to [null]: reading [data.items] throws, the request
    ends as a failure and the list on display is not replaced. *)
Lemma null_body_ends_in_failure :
  let w := run None (startup None)
             [SeedSettled (Some 200);
              Settled 0 (Responded 200
                (Some (VObj [("items", VArr [item_of_category "Shoes"])])));
              Typed "boot"; Elapse 300] in
  let w' := step None w (Settled 1 (Responded 200 (Some VNull))) in
  In 1%nat (in_flight w) /\
  error (state w') = "Failed to load products" /\
  items (state w') = VArr [item_of_category "Shoes"] /\
  console w' = [TypeError].
Proof. vm_compute. repeat split. left. reflexivity. Qed.

(** C8, amended.  When the body of a request in flight parses to a JSON value
    other than [null], the settlement stores the value of its [items] member
    as the item list, or the empty list when the member is absent (or
    falsy), lowers the loading flag, and touches neither the error message
    nor the console. *)
Theorem parsed_body_sets_items
  (env : option string) (w : World) (id : nat) (status : N) (data : jsval) :
  In id (in_flight w) ->
  nullish data = false ->
  let w' := step env w (Settled id (Responded status (Some data))) in
  exists its,
    get_prop data "items" = Ok its /\
    settle_updates (Responded status (Some data)) =
      [SetItems (js_or its (VArr [])); SetLoading false] /\
    items (state w') = (if truthy its then its else VArr []) /\
    (forall members, data = VObj members -> obj_get "items" members = None ->
                     items (state w') = VArr []) /\
    loading (state w') = false /\
    error (state w') = error (state w) /\
    console w' = console w.
Proof.
  intros Hin Hn w'. destruct (get_prop_not_nullish data "items" Hn) as [its Hits].
  exists its.
  assert (Ht : try_block (Responded status (Some data)) =
               Ok [SetItems (js_or its (VArr []))]).
  { unfold try_block. simpl. rewrite Hits. reflexivity. }
  pose proof (settle_updates_success _ _ Ht) as Hu. simpl in Hu.
  assert (Hst : state w' = apply_updates (state w)
                  [SetItems (js_or its (VArr [])); SetLoading false]).
  { unfold w'. simpl. rewrite rerender_state, settle_state by exact Hin.
    rewrite Hu. reflexivity. }
  split; [exact Hits|]. split; [exact Hu|]. rewrite Hst.
  split; [reflexivity|]. split.
  - intros members -> Hnone. simpl in Hits. rewrite Hnone in Hits.
    injection Hits as <-. reflexivity.
  - split; [reflexivity|]. split; [reflexivity|].
    unfold w'. simpl. rewrite rerender_console. unfold fetchProducts_settle.
    rewrite (in_flight_found _ _ Hin). simpl.
    unfold settle_console. rewrite Ht. apply app_nil_r.
Qed.

Lemma parsed_body_sets_items_witness :
  let w := run None (startup None) [SeedSettled None] in
  In 0%nat (in_flight w) /\
  nullish (VObj [("items", VArr [item_of_category "Shoes"])]) = false /\
  exists its,
    get_prop (VObj [("items", VArr [item_of_category "Shoes"])]) "items" = Ok its /\
    items (state (step None w (Settled 0 (Responded 500
             (Some (VObj [("items", VArr [item_of_category "Shoes"])])))))) =
    (if truthy its then its else VArr []).
Proof.
  intro w.
  assert (Hin : In 0%nat (in_flight w)) by (vm_compute; left; reflexivity).
  split; [exact Hin|]. split; [reflexivity|].
  destruct (parsed_body_sets_items None w 0%nat 500
              (VObj [("items", VArr [item_of_category "Shoes"])]) Hin eq_refl)
    as [its [H1 [_ [H3 _]]]].
  exists its. split; [exact H1|exact H3].
Defined.

(** A response with status 200 whose body is the JSON text [null] is a
    failure although the request did not reject and the body parsed. *)
Lemma null_body_fails_though_parsed :
  try_block (Responded 200 (Some VNull)) = Throw TypeError /\
  settle_updates (Responded 200 (Some VNull)) =
    [SetError "Failed to load products"; SetLoading false] /\
  ~ transport_failure (Responded 200 (Some VNull)).
Proof.
  split; [reflexivity|]. split; [reflexivity|].
  intros [H|[status H]]; discriminate H.
Qed.

(** C9, amended.  The HTTP status plays no part: two responses with the same
    body settle a request alike whatever their status codes, and any body
    that parses to a value other than [null] is a success.  A request fails
    exactly when the network request rejects, the body does not parse, or the
    body parses to [null]. *)
Theorem status_is_never_checked
  (env : option string) (w : World) (id : nat) (s1 s2 : N)
  (body : option jsval) (o : Outcome) :
  step env w (Settled id (Responded s1 body)) =
  step env w (Settled id (Responded s2 body)) /\
  (forall data, nullish data = false ->
     exists its, get_prop data "items" = Ok its /\
       try_block (Responded s1 (Some data)) = Ok [SetItems (js_or its (VArr []))]) /\
  ((exists e, try_block o = Throw e) <->
   (transport_failure o \/
    exists status data, o = Responded status (Some data) /\ nullish data = true)).
Proof.
  split; [reflexivity|]. split.
  - intros data Hn. destruct (get_prop_not_nullish data "items" Hn) as [its Hits].
    exists its. split; [exact Hits|]. unfold try_block. simpl. rewrite Hits.
    reflexivity.
  - split.
    + intros [e He]. destruct o as [|status [data|]].
      * left. left. reflexivity.
      * right. exists status, data. split; [reflexivity|].
        destruct (nullish data) eqn:Hn; [reflexivity|].
        destruct (get_prop_not_nullish data "items" Hn) as [its Hits].
        unfold try_block in He. simpl in He. rewrite Hits in He. discriminate He.
      * left. right. exists status. reflexivity.
    + intros [Hf|[status [data [-> Hn]]]].
      * apply transport_failure_throws. exact Hf.
      * exists TypeError. destruct data; try discriminate Hn; reflexivity.
Qed.

(** ** The debounce effect *)

Section Debounce.
Variable env : option string.











End Debounce.


(** A response the page cannot show, settling inside the delay, unmounts the
    component and with it the scheduled fetch: none goes out for the change. *)
Lemma broken_page_cancels_fetch :
  let w := run None (startup None) [SeedSettled (Some 200); Elapse 400] in
  let broken := Responded 200 (Some (VObj [("items", VStr "none")])) in
  network (run None w [Typed "s"; Elapse 100; Settled 0 broken; Elapse 5000]) =
  network w.
Proof. vm_compute. reflexivity. Qed.



(** ** Startup *)





(** ** The two fetches of the first render *)

Lemma category_column_total (l : list jsval) :
  forallb (fun i => negb (nullish i)) l = true ->
  exists col, map_result (fun i => get_prop i "category") l = Ok col.
Proof.
  induction l as [|i l IH]; simpl; intro H; [eexists; reflexivity|].
  apply andb_prop in H as [Hi Hl]. apply negb_true_iff in Hi.
  destruct (get_prop_not_nullish i "category" Hi) as [v Hv].
  destruct (IH Hl) as [col Hcol]. rewrite Hv, Hcol. simpl. eexists. reflexivity.
Qed.

Lemma category_column_throws (l : list jsval) :
  forallb (fun i => negb (nullish i)) l = false ->
  map_result (fun i => get_prop i "category") l = Throw TypeError.
Proof.
  induction l as [|i l IH]; simpl; intro H; [discriminate H|].
  destruct (nullish i) eqn:Hi.
  - destruct i; try discriminate Hi; reflexivity.
  - simpl in H. destruct (get_prop_not_nullish i "category" Hi) as [v Hv].
    rewrite Hv, (IH H). reflexivity.
Qed.

Lemma render_outcome (st : AppState) :
  if renderable (items st)
  then exists cats l,
         items st = VArr l /\ categories (items st) = Ok cats /\
         render st = Ok (mkPage cats (main_blocks (loading st) (error st) l))
  else render st = Throw TypeError.
Proof.
  unfold render. destruct (items st) as [| |b|q|s|l|members]; simpl; try reflexivity.
  destruct (forallb (fun i => negb (nullish i)) l) eqn:Hl.
  - destruct (category_column_total l Hl) as [col Hcol]. rewrite Hcol. simpl.
    eexists. exists l. repeat split.
  - rewrite (category_column_throws l Hl). reflexivity.
Qed.

Lemma settle_parsed (w : World) (id : nat) (status : N) (data its : jsval) :
  In id (in_flight w) ->
  get_prop data "items" = Ok its ->
  state (fetchProducts_settle id (Responded status (Some data)) w) =
    apply_updates (state w) [SetItems (js_or its (VArr [])); SetLoading false] /\
  console (fetchProducts_settle id (Responded status (Some data)) w) = console w.
Proof.
  intros Hin Hits.
  assert (Ht : try_block (Responded status (Some data)) =
               Ok [SetItems (js_or its (VArr []))]).
  { unfold try_block. simpl. rewrite Hits. reflexivity. }
  split.
  - rewrite (settle_state w id _ Hin), (settle_updates_success _ _ Ht). reflexivity.
  - unfold fetchProducts_settle. rewrite (in_flight_found _ _ Hin). simpl.
    unfold settle_console. rewrite Ht. apply app_nil_r.
Qed.





(** * Further properties *)

(** ** The query string *)

Lemma append_cancel_l (a x y : string) : (a ++ x = a ++ y)%string -> x = y.
Proof.
  induction a as [|c a IH]; simpl; intro H; [exact H|].
  injection H as H. apply IH. exact H.
Qed.

Lemma count_char_app (c : ascii) (a b : string) :
  count_char c (a ++ b)%string = (count_char c a + count_char c b)%nat.
Proof.
  induction a as [|x a IH]; simpl; [reflexivity|]. rewrite IH. lia.
Qed.

(** Reading back what the serializer wrote for one byte. *)
Lemma decode_head_urlencode_byte (c : ascii) (r : string) :
  decode_head (urlencode_byte c ++ r)%string = Some (c, r).
Proof.
  destruct c as [[] [] [] [] [] [] [] []]; reflexivity.
Qed.

Lemma urlencode_byte_delimiters (c : ascii) :
  count_char "&" (urlencode_byte c) = 0%nat /\
  count_char "=" (urlencode_byte c) = 0%nat.
Proof.
  destruct c as [[] [] [] [] [] [] [] []]; split; reflexivity.
Qed.

Lemma urlencode_bytes_delimiters (s : string) :
  count_char "&" (urlencode_bytes s) = 0%nat /\
  count_char "=" (urlencode_bytes s) = 0%nat.
Proof.
  induction s as [|c s [IH1 IH2]]; simpl; [split; reflexivity|].
  rewrite !count_char_app, IH1, IH2.
  destruct (urlencode_byte_delimiters c) as [H1 H2]. rewrite H1, H2.
  split; reflexivity.
Qed.

Lemma urlencode_delimiters (s : string) :
  count_char "&" (urlencode s) = 0%nat /\ count_char "=" (urlencode s) = 0%nat.
Proof. apply urlencode_bytes_delimiters. Qed.

(** The byte serializer loses nothing: different byte strings are written
    differently. *)
Lemma urlencode_bytes_injective (s1 s2 : string) :
  urlencode_bytes s1 = urlencode_bytes s2 -> s1 = s2.
Proof.
  revert s2. induction s1 as [|c1 s1 IH]; intros [|c2 s2] H; simpl in H.
  - reflexivity.
  - apply (f_equal decode_head) in H.
    rewrite decode_head_urlencode_byte in H. discriminate H.
  - apply (f_equal decode_head) in H.
    rewrite decode_head_urlencode_byte in H. discriminate H.
  - apply (f_equal decode_head) in H.
    rewrite !decode_head_urlencode_byte in H. injection H as Hc Hs.
    subst c2. f_equal. apply IH. exact Hs.
Qed.

(** What is written is the same exactly when the texts are the same once
    their lone surrogates are replaced. *)
Lemma urlencode_same (s1 s2 : string) :
  urlencode s1 = urlencode s2 <-> USVString s1 = USVString s2.
Proof.
  unfold urlencode. split; [apply urlencode_bytes_injective|].
  intros ->. reflexivity.
Qed.

Lemma USVString_cons (c : ascii) (rest : string) :
  surrogate_lead c = false ->
  USVString (String c rest) = String c (USVString rest).
Proof.
  intro H. destruct rest as [|c2 [|c3 r]]; simpl; rewrite ?H; reflexivity.
Qed.

Lemma plain_not_surrogate (c : ascii) :
  urlencoded_plain c = true -> surrogate_lead c = false.
Proof.
  destruct c as [[] [] [] [] [] [] [] []]; intro H; try reflexivity; discriminate H.
Qed.

Lemma USVString_plain_text (s : string) :
  plain_text s = true -> USVString s = s.
Proof.
  induction s as [|c s IH]; [reflexivity|].
  simpl plain_text. intro H. apply andb_prop in H as [Hc Hs].
  rewrite (USVString_cons c s (plain_not_surrogate c Hc)), (IH Hs). reflexivity.
Qed.

Lemma USVString_empty (s : string) : String.eqb (USVString s) "" = String.eqb s "".
Proof.
  destruct s as [|c [|c2 [|c3 r]]]; simpl; try reflexivity.
  destruct (surrogate_lead c && surrogate_second c2); reflexivity.
Qed.

Lemma urlencode_plain_text (s : string) :
  plain_text s = true -> urlencode s = s.
Proof.
  intro H. unfold urlencode. rewrite (USVString_plain_text s H).
  induction s as [|c s IH]; simpl; [reflexivity|].
  simpl in H. apply andb_prop in H as [Hc Hs].
  unfold urlencode_byte. rewrite Hc. simpl. rewrite IH by exact Hs. reflexivity.
Qed.

(** Two texts free of a character, each followed by that character, agree
    when the whole strings agree. *)
Lemma split_at_char (x : ascii) (a a' b b' : string) :
  count_char x a = 0%nat -> count_char x a' = 0%nat ->
  (a ++ String x b = a' ++ String x b')%string -> a = a' /\ b = b'.
Proof.
  revert a'. induction a as [|c a IH]; intros [|c' a'] Ha Ha' H; simpl in *.
  - injection H as H. split; [reflexivity|exact H].
  - injection H as Hc H. subst c'. rewrite Ascii.eqb_refl in Ha'. discriminate Ha'.
  - injection H as Hc H. subst c. rewrite Ascii.eqb_refl in Ha. discriminate Ha.
  - injection H as Hc H. subst c'.
    destruct (Ascii.eqb c x); [discriminate Ha|].
    destruct (IH a' Ha Ha' H) as [E1 E2]. split; [f_equal; exact E1|exact E2].
Qed.

Lemma query_string_same (cat term cat' term' : string) :
  params_toString (build_params (mkOpts (Some cat) (Some term))) =
  params_toString (build_params (mkOpts (Some cat') (Some term'))) <->
  USVString cat = USVString cat' /\ USVString term = USVString term'.
Proof.
  split.
  - unfold build_params, params_append. simpl.
    destruct (String.eqb_spec cat ""), (String.eqb_spec term ""),
             (String.eqb_spec cat' ""), (String.eqb_spec term' "");
      simpl; intro H; subst; try discriminate H; try (split; reflexivity).
    all: injection H as H.
    + apply urlencode_same in H. split; [reflexivity|exact H].
    + apply urlencode_same in H. split; [exact H|reflexivity].
    + apply (f_equal (count_char "&")) in H. rewrite count_char_app in H.
      rewrite !(proj1 (urlencode_delimiters _)) in H. simpl in H. discriminate H.
    + apply (f_equal (count_char "&")) in H. rewrite count_char_app in H.
      rewrite !(proj1 (urlencode_delimiters _)) in H. simpl in H. discriminate H.
    + apply split_at_char in H; try apply urlencode_delimiters.
      destruct H as [Hc Ht]. injection Ht as Ht.
      apply urlencode_same in Hc, Ht. split; assumption.
  - intros [Hc Ht].
    assert (Ec : String.eqb cat "" = String.eqb cat' "").
    { rewrite <- (USVString_empty cat), <- (USVString_empty cat'), Hc. reflexivity. }
    assert (Et : String.eqb term "" = String.eqb term' "").
    { rewrite <- (USVString_empty term), <- (USVString_empty term'), Ht. reflexivity. }
    apply urlencode_same in Hc, Ht.
    unfold build_params, params_append. simpl. rewrite Ec, Et.
    destruct (String.eqb cat' ""), (String.eqb term' ""); simpl;
      rewrite ?Hc, ?Ht; reflexivity.
Qed.

(** X1.  Whatever the term and the category contain, the query string of the
    request has one [=] per parameter sent and one [&] only between two
    parameters: text typed by the user cannot add or split parameters. *)
Theorem query_string_delimiters (term cat : string) :
  let qs := params_toString (build_params (mkOpts (Some cat) (Some term))) in
  count_char "&" qs =
    (if negb (String.eqb cat "") && negb (String.eqb term "") then 1 else 0)%nat /\
  count_char "=" qs =
    ((if String.eqb cat "" then 0 else 1) + (if String.eqb term "" then 0 else 1))%nat.
Proof.
  unfold build_params, params_append. simpl.
  destruct (urlencode_delimiters cat) as [Ca Ce].
  destruct (urlencode_delimiters term) as [Ta Te].
  destruct (String.eqb cat ""), (String.eqb term ""); simpl;
    rewrite ?count_char_app; simpl; rewrite ?Ca, ?Ce, ?Ta, ?Te; split; reflexivity.
Qed.

(** X2.  Two query states are requested under the same URL exactly when
    their terms and their categories are the same texts once every lone
    surrogate is replaced by U+FFFD (the conversion [URLSearchParams]
    applies); so two states of well-formed texts that differ in the term or
    in the category never share a URL. *)
Theorem products_url_injective
  (env : option string) (cat term cat' term' : string) :
  (products_url env (mkOpts (Some cat) (Some term)) =
   products_url env (mkOpts (Some cat') (Some term')) <->
   USVString cat = USVString cat' /\ USVString term = USVString term') /\
  (USVString cat = cat -> USVString term = term ->
   USVString cat' = cat' -> USVString term' = term' ->
   (cat, term) <> (cat', term') ->
   products_url env (mkOpts (Some cat) (Some term)) <>
   products_url env (mkOpts (Some cat') (Some term'))).
Proof.
  assert (H : products_url env (mkOpts (Some cat) (Some term)) =
              products_url env (mkOpts (Some cat') (Some term')) <->
              USVString cat = USVString cat' /\ USVString term = USVString term').
  { rewrite <- query_string_same. unfold products_url. split.
    - intro E. apply append_cancel_l in E.
      apply (append_cancel_l "/api/products?") in E. exact E.
    - intros ->. reflexivity. }
  split; [exact H|].
  intros Wc Wt Wc' Wt' Hne E. apply H in E. destruct E as [Ec Et].
  apply Hne. rewrite <- Wc, <- Wt, <- Wc', <- Wt', Ec, Et. reflexivity.
Qed.

Lemma products_url_injective_witness :
  USVString "a&q=b" = "a&q=b" /\ USVString "" = "" /\
  USVString "a" = "a" /\ USVString "b" = "b" /\
  ("a&q=b", "") <> ("a", "b") /\
  products_url None (mkOpts (Some "a&q=b") (Some "")) <>
  products_url None (mkOpts (Some "a") (Some "b")).
Proof.
  assert (Hne : ("a&q=b", "") <> ("a", "b")) by discriminate.
  do 4 (split; [reflexivity|]). split; [exact Hne|].
  exact (proj2 (products_url_injective None "a&q=b" "" "a" "b")
           eq_refl eq_refl eq_refl eq_refl Hne).
Defined.

(** X3.  A term made of ASCII letters, digits and [* - . _] only goes into
    the URL as it is: with no category chosen the request is
    [<base>/api/products?q=<term>]. *)
Theorem plain_term_sent_verbatim (env : option string) (term : string) :
  term <> "" ->
  plain_text term = true ->
  products_url env (mkOpts (Some "") (Some term)) =
  (API_BASE env ++ "/api/products?q=" ++ term)%string.
Proof.
  intros Hne Hp. unfold products_url, build_params, params_append. simpl.
  apply String.eqb_neq in Hne. rewrite Hne. simpl.
  rewrite (urlencode_plain_text term Hp). reflexivity.
Qed.

Lemma plain_term_sent_verbatim_witness :
  "shoe" <> "" /\ plain_text "shoe" = true /\
  products_url None (mkOpts (Some "") (Some "shoe")) =
  "http://localhost:8000/api/products?q=shoe"%string.
Proof.
  assert (Hne : "shoe" <> "") by discriminate.
  split; [exact Hne|]. split; [reflexivity|].
  exact (plain_term_sent_verbatim None "shoe" Hne eq_refl).
Defined.

(** ** Invariants of the running component *)

Lemma run_invariant (env : option string) (P : World -> Prop) :
  (forall w e, P w -> P (step env w e)) ->
  forall tr w, P w -> P (run env w tr).
Proof.
  intros Hstep tr. induction tr as [|e tr IH]; intros w Hw; simpl; [exact Hw|].
  apply IH, Hstep, Hw.
Qed.

Lemma step_timer_current (env : option string) (w : World) (e : Event) :
  timer_current w -> timer_current (step env w e).
Proof.
  unfold timer_current. intro H. destruct e as [r|v|c|d|j o]; simpl.
  - unfold seed_settled. destruct (seed_pending w); exact H.
  - unfold typed. destruct (String.eqb v (query (state w))); [exact H|].
    simpl. unfold DEBOUNCE. repeat split; lia.
  - unfold chip. destruct (String.eqb c (category (state w))); [exact H|].
    simpl. unfold DEBOUNCE. repeat split; lia.
  - unfold elapse. destruct (timer w) as [[due o]|] eqn:Ht; simpl.
    + destruct (N.leb_spec due (clock w + d)); simpl; [exact I|].
      rewrite Ht. destruct H as [H1 [H2 H3]]. repeat split; [exact H1|lia|lia].
    + rewrite Ht. exact I.
  - destruct (rerender_timer w (fetchProducts_settle j o w)) as [T|T];
      rewrite T; [|exact I].
    rewrite rerender_state, rerender_clock.
    destruct (settle_frame j o w) as [S1 [_ [S3 [S4 S5]]]].
    rewrite S1, S3, S4, S5. exact H.
Qed.

(** X4.  In every run, a pending timeout carries the term and the category
    the component currently holds, and is due within the next 300 ms: the
    fetch that goes out is never one for an outdated query state. *)
Theorem pending_fetch_is_current (env : option string) (tr : list Event) :
  timer_current (run env (startup env) tr).
Proof.
  apply run_invariant.
  - apply step_timer_current.
  - unfold timer_current. simpl. unfold DEBOUNCE. repeat split; lia.
Qed.

Lemma fetches_sent_issue (env : option string) (opts : Opts) (w : World) :
  fetches_sent (fetchProducts_issue env opts w) = S (fetches_sent w).
Proof.
  unfold fetches_sent. simpl. rewrite filter_app, length_app. simpl. lia.
Qed.

Lemma step_fetch_budget (env : option string) (w : World) (e : Event) (n : nat) :
  (fetches_sent w + (match timer w with Some _ => 1 | None => 0 end) +
   (if seed_pending w then 1 else 0) <= n)%nat ->
  (fetches_sent (step env w e) +
   (match timer (step env w e) with Some _ => 1 | None => 0 end) +
   (if seed_pending (step env w e) then 1 else 0) <=
   n + (if is_change e then 1 else 0))%nat.
Proof.
  intro H. destruct e as [r|v|c|d|j o]; simpl.
  - unfold seed_settled. destruct (seed_pending w) eqn:Hp.
    + rewrite fetches_sent_issue. unfold fetches_sent in *. simpl. lia.
    + rewrite Hp. lia.
  - unfold typed. destruct (String.eqb v (query (state w))); [lia|].
    simpl. unfold fetches_sent in *. simpl. destruct (timer w); lia.
  - unfold chip. destruct (String.eqb c (category (state w))); [lia|].
    simpl. unfold fetches_sent in *. simpl. destruct (timer w); lia.
  - unfold elapse. destruct (timer w) as [[due o]|] eqn:Ht.
    + destruct (due <=? clock w + d).
      * unfold fetches_sent in *. simpl. rewrite filter_app, length_app. simpl. lia.
      * unfold fetches_sent in *. simpl. rewrite Ht. lia.
    + unfold fetches_sent in *. simpl. rewrite Ht. lia.
  - destruct (settle_frame j o w) as [S1 [S2 _]].
    unfold fetches_sent. rewrite rerender_network, rerender_seed_pending, S2.
    assert (Hp : seed_pending (fetchProducts_settle j o w) = seed_pending w).
    { unfold fetchProducts_settle.
      destruct (existsb (Nat.eqb j) (in_flight w)); reflexivity. }
    rewrite Hp.
    destruct (rerender_timer w (fetchProducts_settle j o w)) as [T|T]; rewrite T.
    + rewrite S1. unfold fetches_sent in H. lia.
    + unfold fetches_sent in H. destruct (timer w); lia.
Qed.

Lemma run_fetch_budget (env : option string) (tr : list Event) (w : World) (n : nat) :
  (fetches_sent w + (match timer w with Some _ => 1 | None => 0 end) +
   (if seed_pending w then 1 else 0) <= n)%nat ->
  (fetches_sent (run env w tr) <= n + length (filter is_change tr))%nat.
Proof.
  revert w n. induction tr as [|e tr IH]; intros w n H; simpl.
  - lia.
  - pose proof (step_fetch_budget env w e n H) as Hs.
    apply IH in Hs. destruct (is_change e); simpl in *; lia.
Qed.

(** X5.  The component never sends more product fetches than two (the one
    after the seed call and the one of the first render's timeout) plus one
    per change of the search box or the chips, however the events
    interleave. *)
Theorem fetches_bounded_by_changes (env : option string) (tr : list Event) :
  (fetches_sent (run env (startup env) tr) <= 2 + length (filter is_change tr))%nat.
Proof.
  apply run_fetch_budget. unfold fetches_sent. simpl. lia.
Qed.

Lemma settle_error (o : Outcome) (st : AppState) :
  error (apply_updates st (settle_updates o)) =
  match try_block o with
  | Ok _ => error st
  | Throw _ => "Failed to load products"
  end.
Proof.
  unfold settle_updates. destruct (try_block o) as [us|e] eqn:Ht; [|reflexivity].
  destruct (try_block_shape o us Ht) as [v ->]. reflexivity.
Qed.

Lemma step_error_domain (env : option string) (w : World) (e : Event) :
  error (state w) = "" \/ error (state w) = "Failed to load products" ->
  error (state (step env w e)) = "" \/
  error (state (step env w e)) = "Failed to load products".
Proof.
  intro H. destruct e as [r|v|c|d|j o]; simpl.
  - unfold seed_settled. destruct (seed_pending w); [left; reflexivity|exact H].
  - unfold typed. destruct (String.eqb v (query (state w))); exact H.
  - unfold chip. destruct (String.eqb c (category (state w))); exact H.
  - unfold elapse. destruct (timer w) as [[due o]|]; [|exact H].
    destruct (due <=? clock w + d); [left; reflexivity|exact H].
  - rewrite rerender_state. unfold fetchProducts_settle.
    destruct (existsb (Nat.eqb j) (in_flight w)); [|exact H]. simpl.
    rewrite settle_error. destruct (try_block o); [exact H|right; reflexivity].
Qed.

(** X6.  In every run the error message is either empty or the fixed text
    "Failed to load products": nothing of what a response or an exception
    carried ever reaches the banner. *)
Theorem error_message_is_generic (env : option string) (tr : list Event) :
  error (state (run env (startup env) tr)) = "" \/
  error (state (run env (startup env) tr)) = "Failed to load products".
Proof.
  apply (run_invariant env
           (fun w => error (state w) = "" \/
                     error (state w) = "Failed to load products")).
  - apply step_error_domain.
  - left. reflexivity.
Qed.

Lemma step_loading_has_cause (env : option string) (w : World) (e : Event) :
  loading (state w) && settled_down w = false ->
  loading (state (step env w e)) && settled_down (step env w e) = false.
Proof.
  unfold settled_down. intro H. destruct e as [r|v|c|d|j o]; simpl.
  - unfold seed_settled. destruct (seed_pending w) eqn:Hp; [|rewrite Hp; exact H].
    simpl. destruct (in_flight w); reflexivity.
  - unfold typed. destruct (String.eqb v (query (state w))); exact H.
  - unfold chip. destruct (String.eqb c (category (state w))); exact H.
  - unfold elapse. destruct (timer w) as [[due o]|]; [|exact H].
    destruct (due <=? clock w + d); [|exact H].
    simpl. destruct (in_flight w); simpl; apply andb_false_r.
  - rewrite rerender_state, rerender_seed_pending, rerender_in_flight.
    unfold fetchProducts_settle.
    destruct (existsb (Nat.eqb j) (in_flight w)); [|exact H]. simpl.
    rewrite settle_loading_false. reflexivity.
Qed.

(** X7.  In every run, once the seed call has settled and no product request
    is in flight any more, the loading flag is down: the skeletons are never
    left on the page with nothing outstanding. *)
Theorem no_loading_without_request (env : option string) (tr : list Event) :
  settled_down (run env (startup env) tr) = true ->
  loading (state (run env (startup env) tr)) = false.
Proof.
  intro Hs.
  assert (H : loading (state (run env (startup env) tr)) &&
              settled_down (run env (startup env) tr) = false).
  { apply (run_invariant env (fun w => loading (state w) && settled_down w = false)).
    - apply step_loading_has_cause.
    - reflexivity. }
  rewrite Hs, andb_true_r in H. exact H.
Qed.

Lemma no_loading_without_request_witness :
  let tr := [SeedSettled None; Elapse 300;
             Settled 1 (Responded 200 (Some (VObj [("items", VArr [])])));
             Settled 0 Rejected] in
  settled_down (run None (startup None) tr) = true /\
  loading (state (run None (startup None) tr)) = false.
Proof.
  intro tr. split; [reflexivity|].
  exact (no_loading_without_request None tr eq_refl).
Defined.

Lemma step_before_first_settlement (env : option string) (w : World) (e : Event) :
  no_settlement [e] = true ->
  items (state w) = VArr [] /\ loading (state w) = true /\ error (state w) = "" ->
  items (state (step env w e)) = VArr [] /\
  loading (state (step env w e)) = true /\
  error (state (step env w e)) = "".
Proof.
  intros He H. destruct e as [r|v|c|d|j o]; simpl in *; try discriminate He.
  - unfold seed_settled. destruct (seed_pending w); [|exact H]. simpl. tauto.
  - unfold typed. destruct (String.eqb v (query (state w))); exact H.
  - unfold chip. destruct (String.eqb c (category (state w))); exact H.
  - unfold elapse. destruct (timer w) as [[due o]|]; [|exact H].
    destruct (due <=? clock w + d); [|exact H]. simpl. tauto.
Qed.

(** X8.  From startup until the first product request settles, whatever the
    user types or clicks and however long it takes, the page shows the 8
    skeletons and nothing else: no category to choose, no banner, no grid. *)
Theorem skeletons_until_first_settlement (env : option string) (tr : list Event) :
  no_settlement tr = true ->
  render (state (run env (startup env) tr)) = Ok (mkPage [] [Skeletons 8]).
Proof.
  intro Hq.
  assert (H : items (state (run env (startup env) tr)) = VArr [] /\
              loading (state (run env (startup env) tr)) = true /\
              error (state (run env (startup env) tr)) = "").
  { generalize (startup env) (conj (eq_refl : items (state (startup env)) = VArr [])
                 (conj (eq_refl : loading (state (startup env)) = true)
                       (eq_refl : error (state (startup env)) = ""))).
    induction tr as [|e tr IH]; intros w Hw; simpl; [exact Hw|].
    simpl in Hq. apply andb_prop in Hq as [He Hq].
    apply IH; [exact Hq|]. apply step_before_first_settlement; [|exact Hw].
    simpl. rewrite He. reflexivity. }
  destruct H as [Hi [Hl He]]. unfold render. rewrite Hi, Hl, He. reflexivity.
Qed.

Lemma skeletons_until_first_settlement_witness :
  no_settlement [Typed "s"; Elapse 200; SeedSettled None; Chip "Shoes"; Elapse 900] = true /\
  render (state (run None (startup None)
                     [Typed "s"; Elapse 200; SeedSettled None; Chip "Shoes"; Elapse 900])) =
  Ok (mkPage [] [Skeletons 8]).
Proof.
  split; [reflexivity|].
  exact (skeletons_until_first_settlement None
           [Typed "s"; Elapse 200; SeedSettled None; Chip "Shoes"; Elapse 900] eq_refl).
Defined.

(** ** What the render function gets through *)

(** X9.  The render function of [App] returns its page exactly when the
    stored item list is an array without [null]: then the page has the
    derived categories and the view selected from the flag, the message and
    the list; on anything else (a number, a text, an object, an array holding
    [null]) the category derivation throws a TypeError and so does the
    render. *)
Theorem render_needs_item_array (st : AppState) :
  if renderable (items st)
  then exists cats l,
         items st = VArr l /\ categories (items st) = Ok cats /\
         render st = Ok (mkPage cats (main_blocks (loading st) (error st) l))
  else render st = Throw TypeError /\ categories (items st) = Throw TypeError.
Proof.
  pose proof (render_outcome st) as H.
  destruct (renderable (items st)) eqn:Hr; [exact H|].
  split; [exact H|].
  unfold categories. destruct (items st) as [| |b|q|s|l|members]; try reflexivity.
  simpl in Hr. rewrite (category_column_throws l Hr). reflexivity.
Qed.

(** X10.  A body whose [items] member is truthy but no array of items (a
    number, a text, an object, an array holding [null]) is stored as it is:
    no error message is set and nothing is logged, and the next render throws
    a TypeError. *)
Theorem malformed_items_break_render
  (env : option string) (w : World) (id : nat) (status : N) (data its : jsval) :
  In id (in_flight w) ->
  get_prop data "items" = Ok its ->
  truthy its = true ->
  renderable its = false ->
  let w' := step env w (Settled id (Responded status (Some data))) in
  items (state w') = its /\
  error (state w') = error (state w) /\
  console w' = console w /\
  render (state w') = Throw TypeError.
Proof.
  intros Hin Hits Ht Hr w'.
  destruct (settle_parsed w id status data its Hin Hits) as [Hst Hco].
  assert (Hi : items (state w') = its).
  { unfold w'. simpl. rewrite rerender_state, Hst. simpl. unfold js_or.
    rewrite Ht. reflexivity. }
  split; [exact Hi|].
  split; [unfold w'; simpl; rewrite rerender_state, Hst; reflexivity|].
  split; [unfold w'; simpl; rewrite rerender_console; exact Hco|].
  pose proof (render_outcome (state w')) as H.
  rewrite Hi, Hr in H. exact H.
Qed.

Lemma malformed_items_break_render_witness :
  let w := run None (startup None) [SeedSettled (Some 200)] in
  let data := VObj [("items", VStr "none")] in
  In 0%nat (in_flight w) /\ get_prop data "items" = Ok (VStr "none") /\
  truthy (VStr "none") = true /\ renderable (VStr "none") = false /\
  render (state (step None w (Settled 0 (Responded 200 (Some data))))) =
    Throw TypeError.
Proof.
  intros w data.
  assert (Hin : In 0%nat (in_flight w)) by (vm_compute; left; reflexivity).
  split; [exact Hin|]. split; [reflexivity|]. split; [reflexivity|].
  split; [reflexivity|].
  exact (proj2 (proj2 (proj2
    (malformed_items_break_render None w 0%nat 200 data (VStr "none")
       Hin eq_refl eq_refl eq_refl)))).
Defined.

(** X11.  When a request in flight answers with an array of well-formed
    items, the next render shows one chip per distinct non-empty category, in
    first-seen order, and below them the "no results" box for an empty array
    or else the grid of these items (under the banner, if an error message
    was standing). *)
Theorem fresh_items_are_rendered
  (env : option string) (w : World) (id : nat) (status : N) (data : jsval)
  (l : list jsval) :
  In id (in_flight w) ->
  get_prop data "items" = Ok (VArr l) ->
  Forall product_like l ->
  render (state (step env w (Settled id (Responded status (Some data))))) =
  Ok (mkPage (map VStr (derived_categories l))
             (main_blocks false (error (state w)) l)).
Proof.
  intros Hin Hits Hl.
  destruct (settle_parsed w id status data (VArr l) Hin Hits) as [Hst _].
  assert (Hs : state (step env w (Settled id (Responded status (Some data)))) =
               mkState (VArr l) false (query (state w)) (category (state w))
                       (error (state w))).
  { simpl. rewrite rerender_state, Hst. reflexivity. }
  rewrite Hs. unfold render. cbn [items loading error].
  rewrite (categories_product_like l Hl). reflexivity.
Qed.

Lemma fresh_items_are_rendered_witness :
  let w := run None (startup None) [SeedSettled (Some 200)] in
  let l := [item_of_category "Shoes"; item_of_category ""; item_of_category "Shoes"] in
  In 0%nat (in_flight w) /\
  get_prop (VObj [("items", VArr l)]) "items" = Ok (VArr l) /\
  Forall product_like l /\
  render (state (step None w
            (Settled 0 (Responded 200 (Some (VObj [("items", VArr l)])))))) =
  Ok (mkPage [VStr "Shoes"] [Grid l]).
Proof.
  intros w l.
  assert (Hin : In 0%nat (in_flight w)) by (vm_compute; left; reflexivity).
  assert (Hl : Forall product_like l).
  { exact (proj1 (items_of_categories ["Shoes"; ""; "Shoes"])). }
  split; [exact Hin|]. split; [reflexivity|]. split; [exact Hl|].
  exact (fresh_items_are_rendered None w 0%nat 200
           (VObj [("items", VArr l)]) l Hin eq_refl Hl).
Defined.

(** ** Overlapping requests *)




(** ** The chip row *)

Section FirstSeenFacts.
Context {A : Type} (same : A -> A -> bool).

Lemma first_seen_incl (l : list A) (c : A) :
  In c (first_seen same l) -> In c l.
Proof.
  revert c. induction l as [|x l IH]; simpl; intros c H; [exact H|].
  destruct H as [H|H]; [left; exact H|].
  apply filter_In in H as [H _]. right. apply IH. exact H.
Qed.

Lemma pairwise_filter (R : A -> A -> Prop) (f : A -> bool) (l : list A) :
  ForallOrdPairs R l -> ForallOrdPairs R (filter f l).
Proof.
  induction 1 as [|a l Ha Hl IH]; simpl; [constructor|].
  destruct (f a); [|exact IH]. constructor; [|exact IH].
  apply Forall_forall. intros y Hy. apply filter_In in Hy as [Hy _].
  rewrite Forall_forall in Ha. apply Ha. exact Hy.
Qed.

Lemma first_seen_pairwise (l : list A) :
  ForallOrdPairs (fun a b => same a b = false) (first_seen same l).
Proof.
  induction l as [|x l IH]; simpl; constructor.
  - apply Forall_forall. intros y Hy. apply filter_In in Hy as [_ Hy].
    apply negb_true_iff in Hy. exact Hy.
  - apply pairwise_filter. exact IH.
Qed.

Lemma first_seen_length (l : list A) :
  (length (first_seen same l) <= length l)%nat.
Proof.
  induction l as [|x l IH]; simpl; [lia|].
  pose proof (filter_length_le (fun y => negb (same x y)) (first_seen same l)).
  lia.
Qed.

End FirstSeenFacts.

Lemma category_column_members (l col : list jsval) :
  map_result (fun i => get_prop i "category") l = Ok col ->
  length col = length l /\
  forall c, In c col -> exists i, In i l /\ get_prop i "category" = Ok c.
Proof.
  revert col. induction l as [|i l IH]; simpl; intros col H.
  - injection H as <-. split; [reflexivity|]. intros c [].
  - destruct (get_prop i "category") as [v|] eqn:Hv; simpl in H; [|discriminate H].
    destruct (map_result (fun i0 => get_prop i0 "category") l) as [col'|] eqn:Hc;
      simpl in H; [|discriminate H].
    injection H as <-. destruct (IH col' eq_refl) as [Hlen Hmem].
    split; [simpl; rewrite Hlen; reflexivity|].
    intros c [Hc'|Hc'].
    + subst c. exists i. split; [left; reflexivity|exact Hv].
    + destruct (Hmem c Hc') as [i' [Hi' Hg]]. exists i'. split; [right; exact Hi'|exact Hg].
Qed.

Lemma categories_outcome (l cats : list jsval) :
  categories (VArr l) = Ok cats ->
  Forall (fun c => truthy c = true) cats /\
  ForallOrdPairs (fun a b => same_value_zero a b = false) cats /\
  (forall c, In c cats -> exists i, In i l /\ get_prop i "category" = Ok c) /\
  (length cats <= length l)%nat.
Proof.
  unfold categories, Array_from.
  destruct (map_result (fun i => get_prop i "category") l) as [col|] eqn:Hcol;
    simpl; [|discriminate].
  intro H. injection H as <-.
  rewrite (new_Set_first_seen same_value_zero same_value_zero_sym same_value_zero_trans).
  destruct (category_column_members l col Hcol) as [Hlen Hmem].
  split; [|split; [|split]].
  - apply Forall_forall. intros c Hc. apply first_seen_incl in Hc.
    apply filter_In in Hc as [_ Hc]. exact Hc.
  - apply first_seen_pairwise.
  - intros c Hc. apply first_seen_incl in Hc. apply filter_In in Hc as [Hc _].
    apply Hmem. exact Hc.
  - pose proof (first_seen_length same_value_zero (filter truthy col)).
    pose proof (filter_length_le truthy col). lia.
Qed.

(** X13.  Whatever the items are, when the category derivation succeeds its
    result holds only truthy values, each the [category] of some item, no two
    of them equal in the sense of [Set] (SameValueZero), and never more of
    them than there are items. *)
Theorem categories_are_distinct_truthy (l cats : list jsval) :
  categories (VArr l) = Ok cats ->
  Forall (fun c => truthy c = true) cats /\
  ForallOrdPairs (fun a b => same_value_zero a b = false) cats /\
  (forall c, In c cats -> exists i, In i l /\ get_prop i "category" = Ok c) /\
  (length cats <= length l)%nat.
Proof. exact (categories_outcome l cats). Qed.

Lemma categories_are_distinct_truthy_witness :
  categories (VArr [item_of_category "Shoes"; VNum 3; VObj [("category", VNum 0)];
                    item_of_category "Shoes"]) = Ok [VStr "Shoes"] /\
  (length [VStr "Shoes"] <= 4)%nat.
Proof.
  split; [reflexivity|].
  exact (proj2 (proj2 (proj2
    (categories_are_distinct_truthy
       [item_of_category "Shoes"; VNum 3; VObj [("category", VNum 0)];
        item_of_category "Shoes"] [VStr "Shoes"] eq_refl)))).
Defined.

Lemma highlighted_among_distinct (active : string) (cats : list jsval) :
  ForallOrdPairs (fun a b => same_value_zero a b = false) cats ->
  length (filter (strict_equal active) cats) =
  if existsb (strict_equal active) cats then 1%nat else 0%nat.
Proof.
  induction 1 as [|c cats Hc Hp IH]; simpl; [reflexivity|].
  destruct (strict_equal active c) eqn:Hac; simpl; [|exact IH].
  f_equal. rewrite IH.
  destruct (existsb (strict_equal active) cats) eqn:He; [|reflexivity].
  apply existsb_exists in He as [y [Hy Hay]].
  rewrite Forall_forall in Hc. specialize (Hc y Hy).
  destruct c; try discriminate Hac. destruct y; try discriminate Hay.
  simpl in *. apply String.eqb_eq in Hac, Hay. subst.
  rewrite String.eqb_refl in Hc. discriminate Hc.
Qed.

Lemma chips_highlighted (active : string) (cats : list jsval) :
  length (filter chip_active (CategoryChips active cats)) =
  ((if String.eqb active "" then 1 else 0) +
   length (filter (strict_equal active) cats))%nat.
Proof.
  unfold CategoryChips. simpl.
  assert (H : length (filter chip_active
                (map (fun c => mkChip (Some c) c (strict_equal active c)) cats)) =
              length (filter (strict_equal active) cats)).
  { induction cats as [|c cats IH]; simpl; [reflexivity|].
    destruct (strict_equal active c); simpl; rewrite IH; reflexivity. }
  destruct (String.eqb active ""); simpl; rewrite H; reflexivity.
Qed.

(** X14.  Whatever the items are, the chip row drawn for a selected
    category (a text) highlights at most one button: the "All" button exactly
    when no category is selected, else the chip of the selected category if
    the current items have that category, and no button at all if they have
    not. *)
Theorem one_chip_highlighted (active : string) (l cats : list jsval) :
  categories (VArr l) = Ok cats ->
  length (filter chip_active (CategoryChips active cats)) =
    (if String.eqb active "" || existsb (strict_equal active) cats
     then 1%nat else 0%nat) /\
  chip_active (hd (mkChip None VNull false) (CategoryChips active cats)) =
    String.eqb active "".
Proof.
  intro Hc. split; [|reflexivity].
  destruct (categories_outcome l cats Hc) as [Ht [Hp _]].
  rewrite chips_highlighted, (highlighted_among_distinct active cats Hp).
  destruct (String.eqb_spec active "") as [->|Hne]; simpl; [|reflexivity].
  destruct (existsb (strict_equal "") cats) eqn:He; [|reflexivity].
  apply existsb_exists in He as [y [Hy Hay]].
  rewrite Forall_forall in Ht. specialize (Ht y Hy).
  destruct y; try discriminate Hay.
  destruct s; [discriminate Ht|discriminate Hay].
Qed.

Lemma one_chip_highlighted_witness :
  categories (VArr [item_of_category "Shoes"; item_of_category "Hats"]) =
    Ok [VStr "Shoes"; VStr "Hats"] /\
  length (filter chip_active
            (CategoryChips "Bags" [VStr "Shoes"; VStr "Hats"])) = 0%nat.
Proof.
  split; [reflexivity|].
  exact (proj1 (one_chip_highlighted "Bags"
                  [item_of_category "Shoes"; item_of_category "Hats"]
                  [VStr "Shoes"; VStr "Hats"] eq_refl)).
Defined.

(** ** Rate of requests and origin of the list *)

Local Opaque N.mul.

Lemma step_fetch_rate (env : option string) (w : World) (e : Event) :
  (DEBOUNCE * N.of_nat (fetches_sent w) +
   (if seed_pending w then DEBOUNCE else 0) <= clock w + DEBOUNCE /\
   match timer w with
   | Some (due, _) =>
       DEBOUNCE * N.of_nat (fetches_sent w) +
       (if seed_pending w then DEBOUNCE else 0) <= due
   | None => True
   end) ->
  DEBOUNCE * N.of_nat (fetches_sent (step env w e)) +
  (if seed_pending (step env w e) then DEBOUNCE else 0) <=
  clock (step env w e) + DEBOUNCE /\
  match timer (step env w e) with
  | Some (due, _) =>
      DEBOUNCE * N.of_nat (fetches_sent (step env w e)) +
      (if seed_pending (step env w e) then DEBOUNCE else 0) <= due
  | None => True
  end.
Proof.
  intros [H1 H2]. destruct e as [r|v|c|d|j o]; simpl.
  - unfold seed_settled. destruct (seed_pending w) eqn:Hp.
    + rewrite fetches_sent_issue, Nat2N.inj_succ. unfold fetches_sent in *.
      simpl. destruct (timer w) as [[due o]|]; split; try exact I; lia.
    + rewrite Hp. split; assumption.
  - unfold typed. destruct (String.eqb v (query (state w))); [split; assumption|].
    unfold fetches_sent in *. simpl. split; lia.
  - unfold chip. destruct (String.eqb c (category (state w))); [split; assumption|].
    unfold fetches_sent in *. simpl. split; lia.
  - unfold elapse. destruct (timer w) as [[due o]|] eqn:Ht.
    + destruct (N.leb_spec due (clock w + d)).
      * unfold fetches_sent in *. simpl. rewrite filter_app, length_app. simpl.
        rewrite Nat.add_1_r, Nat2N.inj_succ. split; [lia|exact I].
      * unfold fetches_sent in *. simpl. rewrite Ht. split; lia.
    + unfold fetches_sent in *. simpl. rewrite Ht. split; [lia|exact I].
  - destruct (settle_frame j o w) as [S1 [S2 [S3 _]]].
    unfold fetches_sent in *.
    rewrite rerender_network, rerender_seed_pending, rerender_clock, S2, S3.
    assert (Hp : seed_pending (fetchProducts_settle j o w) = seed_pending w).
    { unfold fetchProducts_settle.
      destruct (existsb (Nat.eqb j) (in_flight w)); reflexivity. }
    rewrite Hp. split; [exact H1|].
    destruct (rerender_timer w (fetchProducts_settle j o w)) as [T|T]; rewrite T;
      [rewrite S1; exact H2|exact I].
Qed.

Local Transparent N.mul.

(** X15.  However fast the user types or clicks, the component sends at
    most one product fetch per 300 ms of elapsed time, plus one: after [t] ms
    no more than [t / 300 + 1] fetches have gone out. *)
Theorem fetch_rate_is_limited (env : option string) (tr : list Event) :
  DEBOUNCE * N.of_nat (fetches_sent (run env (startup env) tr)) <=
  clock (run env (startup env) tr) + DEBOUNCE.
Proof.
  assert (H : DEBOUNCE * N.of_nat (fetches_sent (run env (startup env) tr)) +
              (if seed_pending (run env (startup env) tr) then DEBOUNCE else 0) <=
              clock (run env (startup env) tr) + DEBOUNCE /\
              match timer (run env (startup env) tr) with
              | Some (due, _) =>
                  DEBOUNCE * N.of_nat (fetches_sent (run env (startup env) tr)) +
                  (if seed_pending (run env (startup env) tr) then DEBOUNCE else 0)
                  <= due
              | None => True
              end).
  { apply (run_invariant env (fun w =>
       DEBOUNCE * N.of_nat (fetches_sent w) +
       (if seed_pending w then DEBOUNCE else 0) <= clock w + DEBOUNCE /\
       match timer w with
       | Some (due, _) =>
           DEBOUNCE * N.of_nat (fetches_sent w) +
           (if seed_pending w then DEBOUNCE else 0) <= due
       | None => True
       end)).
    - apply step_fetch_rate.
    - unfold fetches_sent. simpl. unfold DEBOUNCE. split; lia. }
  destruct H as [H _].
  destruct (seed_pending (run env (startup env) tr)); lia.
Qed.

Lemma step_items_origin (env : option string) (w : World) (e : Event) :
  items (state (step env w e)) = items (state w) \/
  exists id o, e = Settled id o /\
               delivered o = Some (items (state (step env w e))).
Proof.
  destruct e as [r|v|c|d|j o]; simpl.
  - left. unfold seed_settled. destruct (seed_pending w); reflexivity.
  - left. unfold typed. destruct (String.eqb v (query (state w))); reflexivity.
  - left. unfold chip. destruct (String.eqb c (category (state w))); reflexivity.
  - left. unfold elapse. destruct (timer w) as [[due o]|]; [|reflexivity].
    destruct (due <=? clock w + d); reflexivity.
  - rewrite rerender_state.
    destruct (existsb (Nat.eqb j) (in_flight w)) eqn:Hj.
    + apply existsb_exists in Hj as [x [Hx Hjx]]. apply Nat.eqb_eq in Hjx. subst x.
      rewrite (settle_items j o w Hx). unfold shown_after.
      destruct (delivered o) as [v|] eqn:Hd; [|left; reflexivity].
      right. exists j, o. split; [reflexivity|exact Hd].
    + left. unfold fetchProducts_settle. rewrite Hj. reflexivity.
Qed.

Lemma run_items_origin (env : option string) (tr : list Event) (w : World) :
  items (state (run env w tr)) = items (state w) \/
  exists id o, In (Settled id o) tr /\
               delivered o = Some (items (state (run env w tr))).
Proof.
  revert w. induction tr as [|e tr IH]; intro w; simpl; [left; reflexivity|].
  destruct (IH (step env w e)) as [H|[id [o [Hin Hd]]]].
  - rewrite H. destruct (step_items_origin env w e) as [H'|[id [o [He Hd]]]].
    + left. exact H'.
    + right. exists id, o. split; [left; exact He|exact Hd].
  - right. exists id, o. split; [right; exact Hin|exact Hd].
Qed.

(** X16.  In every run the list on display is either the empty list the
    component starts with or the list delivered by a response that settled
    during the run: the component never shows items it did not receive. *)
Theorem items_come_from_a_response (env : option string) (tr : list Event) :
  items (state (run env (startup env) tr)) = VArr [] \/
  exists id o, In (Settled id o) tr /\
               delivered o = Some (items (state (run env (startup env) tr))).
Proof. apply (run_items_origin env tr (startup env)). Qed.
